(** * lunar_tools.fontrender: [add_text_to_image]

    A shallow embedding of [src/lunar_tools/fontrender.py] and the
    properties of its font-size search, text placement, font-path
    resolution and error behaviour.

    The function is modelled twice.

    The first model, [add_text_to_image], idealises what lies outside the
    repository: every Pillow call succeeds, and Python [float]s (the width
    fractions, [y_pos], the measured text width) are exact rationals [Q].
    It carries the properties of the control flow: the search loop, the
    alignment, the font path, the order of the checks, the objects touched.

    The second model, [Checked.add_text_to_image], adds what Pillow and
    Python refuse: a negative image size, an array that is no image, a font
    size that is not positive, a file that is no font, a multi-line text,
    the conversion of an infinite product by [int], coordinates or an image
    that [draw.text] does not take.  There [y_pos] is a binary64 number and
    line 103 is the rounded product of the Standard Library's IEEE 754
    specification.  Widths and width fractions stay exact rationals.

    What the function obtains from outside (the host OS name, file
    existence, text measurement, the rasteriser, array conversion) is a
    field of [Host], and what Pillow accepts is a field of [Pillow].  Image
    objects live in a store indexed by references, so that drawing on a
    caller's image is visible through the caller's reference.  Python
    [int]s are [Z]. *)

From Stdlib Require Import ZArith QArith Qround String Ascii List Bool Lia Lqa.
From Stdlib Require Import Floats.SpecFloat.
Import ListNotations.

Local Open Scope Z_scope.

(** ** Outcomes of a call *)

Inductive error : Type :=
  (* raised by the function itself *)
| ImgInputError                (* ValueError: img_input must be a PIL.Image, ... *)
| UnsupportedOS                (* ValueError: Unsupported operating system ...   *)
| FontMissing (path : string)  (* AssertionError: {font_path} does not exist!    *)
| AlignError                   (* ValueError: align must be 'left', ...          *)
  (* raised inside the calls it makes *)
| ImageSizeError               (* Image.new: ValueError, negative width or height *)
| ArrayError                   (* Image.fromarray: TypeError, no image data      *)
| FontSizeError (size : Z)     (* ImageFont.truetype: ValueError, size <= 0      *)
| FontFileError (path : string) (* ImageFont.truetype: OSError, not a font file  *)
| MultilineError               (* draw.textlength: ValueError, multi-line text   *)
| OverflowError                (* int: OverflowError, float infinity             *)
| NaNError                     (* int: ValueError, float NaN                     *)
| DrawError.                   (* draw.text does not take its arguments          *)

(** [OutOfFuel] is not a Python outcome: it says that the iteration budget
    given to the [while] loop was used up with the loop still running. *)
Inductive outcome (A : Type) : Type :=
| Done (a : A)
| Raised (e : error)
| OutOfFuel.

Arguments Done {A} a.
Arguments Raised {A} e.
Arguments OutOfFuel {A}.

Definition bind {A B : Type} (m : outcome A) (k : A -> outcome B) : outcome B :=
  match m with
  | Done a => k a
  | Raised e => Raised e
  | OutOfFuel => OutOfFuel
  end.

Notation "x <- m ;; k" := (bind m (fun x => k))
  (at level 61, m at next level, right associativity).
Notation "' p <- m ;; k" := (bind m (fun x => let p := x in k))
  (at level 61, p pattern, m at next level, right associativity).

Definition raised {A : Type} (m : outcome A) : option error :=
  match m with
  | Raised e => Some e
  | _ => None
  end.

(** ** Python arithmetic on floats *)

Definition Qltb (a b : Q) : bool := negb (Qle_bool b a).

(** [int(q)]: rounds towards zero. *)
Definition py_int (q : Q) : Z := Z.quot (Qnum q) (Zpos (Qden q)).

(** [a // b] on a float [a]: the floor of the quotient, still a float. *)
Definition py_floordiv (a : Q) (b : Z) : Q := inject_Z (Qfloor (a / inject_Z b)).

(** ** Pillow objects *)

Definition RGB : Type := (Z * Z * Z)%type.

Record Image : Type := {
  mode : string;
  size : Z * Z;
  getpixel : Z -> Z -> RGB
}.

(** [Image.new(mode, size, color)] *)
Definition Image_new (m : string) (sz : Z * Z) (color : RGB) : Image :=
  {| mode := m; size := sz; getpixel := fun _ _ => color |}.

Record Font : Type := {
  font_file : string;
  font_px : Z
}.

(** [ImageFont.truetype(font_path, font_size)] *)
Definition truetype (font_path : string) (font_size : Z) : Font :=
  {| font_file := font_path; font_px := font_size |}.

Definition ndarray : Type := list (list RGB).

(** A rectangle [(left, top, right, bottom)], as [draw.textbbox] returns. *)
Definition bbox : Type := (Q * Q * Q * Q)%type.

Definition inside (b : bbox) (i j : Z) : bool :=
  let '(l, t, r, d) := b in
  Qle_bool l (inject_Z i) && Qltb (inject_Z i) r
  && Qle_bool t (inject_Z j) && Qltb (inject_Z j) d.

Record Host : Type := {
  platform_system : string;                 (* platform.system()            *)
  path_exists : string -> bool;             (* os.path.exists(path)         *)
  fromarray : ndarray -> Image;             (* Image.fromarray(a)           *)
  textlength : string -> Font -> Q;         (* draw.textlength(text, font)  *)
  textbbox : Q * Z -> string -> Font -> bbox;
                                            (* draw.textbbox(xy, text, font) *)
  draw_text : Image -> Q * Z -> string -> Font -> RGB -> Image
                                            (* draw.text(xy, text, font, fill) *)
}.

(** ** The object store *)

Definition ref : Type := nat.

Record heap : Type := {
  objects : ref -> Image;
  next_ref : ref
}.

Definition upd (f : ref -> Image) (r : ref) (im : Image) : ref -> Image :=
  fun r' => if Nat.eqb r' r then im else f r'.

Definition alloc (s : heap) (im : Image) : ref * heap :=
  (next_ref s,
   {| objects := upd (objects s) (next_ref s) im; next_ref := S (next_ref s) |}).

Definition mutate (s : heap) (r : ref) (f : Image -> Image) : heap :=
  {| objects := upd (objects s) r (f (objects s r)); next_ref := next_ref s |}.

(** ** Arguments *)

Inductive img_input : Type :=
| Tuple (w h : Z)        (* isinstance(img_input, tuple)       *)
| Ndarray (a : ndarray)  (* isinstance(img_input, np.ndarray)  *)
| PILImage (r : ref)     (* isinstance(img_input, Image.Image) *)
| Other.                 (* anything else                      *)

Definition backslash : string := String (ascii_of_nat 92) EmptyString.

Local Open Scope string_scope.

Definition is_font_type (font_type : option string) (s : string) : bool :=
  match font_type with
  | Some t => String.eqb t s
  | None => false
  end.

(** Lines 62-66. *)
Definition font_extension (font_type : option string) : string :=
  if is_font_type font_type "italic" then "i.ttf"
  else if is_font_type font_type "bold" then "bd.ttf"
  else ".ttf".

(** Lines 61-75. *)
Definition font_path (os_name font_name : string) (font_type : option string)
  : outcome string :=
  let font_extension := font_extension font_type in
  if String.eqb os_name "Darwin" then
    Done ("/System/Library/Fonts/" ++ font_name ++ font_extension)
  else if String.eqb os_name "Linux" then
    Done ("/usr/share/fonts/truetype/" ++ font_name ++ font_extension)
  else if String.eqb os_name "Windows" then
    Done ("C:" ++ backslash ++ "Windows" ++ backslash ++ "Fonts" ++ backslash
              ++ font_name ++ font_extension)
  else Raised UnsupportedOS.

(** Lines 94-101. *)
Definition x_offset (align : string) (width : Z) (text_width : Q) : outcome Q :=
  if String.eqb align "left" then Done 0%Q
  else if String.eqb align "center" then
    Done (py_floordiv (inject_Z width - text_width) 2)
  else if String.eqb align "right" then
    Done (inject_Z width - text_width)%Q
  else Raised AlignError.

(** Line 103, with [text_height = font_size] (line 93). *)
Definition y_offset (y_pos : Q) (height text_height : Z) : Z :=
  py_int (y_pos * inject_Z (height - text_height)).

(** The loop variables of lines 79-90. *)
Record fit : Type := {
  font_size : Z;
  font : Font;
  text_width : Q
}.

Section Render.

Variable host : Host.

(** Lines 45-52. *)
Definition resolve_image (s : heap) (i : img_input) : outcome (ref * heap) :=
  match i with
  | Tuple w h => Done (alloc s (Image_new "RGB" (w, h) (255, 255, 255)))
  | Ndarray a => Done (alloc s (fromarray host a))
  | PILImage r => Done (r, s)
  | Other => Raised ImgInputError
  end.

(** Lines 79-80 and 89-90: load the font at a size and measure the text. *)
Definition measure (font_path text : string) (size : Z) : fit :=
  let f := truetype font_path size in
  {| font_size := size; font := f; text_width := textlength host text f |}.

(** The condition of the [while] at line 83. *)
Definition loop_cond (scaled_min_width scaled_max_width : Q) (height : Z)
  (s : fit) : bool :=
  (Qltb (text_width s) scaled_min_width || Qltb scaled_max_width (text_width s))
  && (font_size s <? height)%Z.

(** Its body, lines 84-90. *)
Definition loop_body (font_path text : string) (scaled_min_width : Q) (s : fit)
  : fit :=
  measure font_path text
    (if Qltb (text_width s) scaled_min_width
     then font_size s + 1 else font_size s - 1)%Z.

(** The [while] loop; [fuel] bounds the number of iterations. *)
Fixpoint fit_loop (fuel : nat) (font_path text : string)
  (scaled_min_width scaled_max_width : Q) (height : Z) (s : fit) : outcome fit :=
  if loop_cond scaled_min_width scaled_max_width height s then
    match fuel with
    | O => OutOfFuel
    | S n =>
        fit_loop n font_path text scaled_min_width scaled_max_width height
          (loop_body font_path text scaled_min_width s)
    end
  else Done s.

(** The function, lines 6-107.  [font_size0] is the [font_size] argument. *)
Definition add_text_to_image (fuel : nat) (s : heap)
  (img : img_input) (text align : string) (y_pos : Q) (font_name : string)
  (font_size0 : Z) (min_width max_width : Q) (font_color : RGB)
  (font_type : option string) : outcome (ref * heap) :=
  '(image, s1) <- resolve_image s img ;;
  let '(width, height) := size (objects s1 image) in
  let scaled_min_width := (min_width * inject_Z width)%Q in
  let scaled_max_width := (max_width * inject_Z width)%Q in
  font_path <- font_path (platform_system host) font_name font_type ;;
  if negb (path_exists host font_path) then Raised (FontMissing font_path) else
  st <- fit_loop fuel font_path text scaled_min_width scaled_max_width height
          (measure font_path text font_size0) ;;
  let text_height := font_size st in
  x <- x_offset align width (text_width st) ;;
  let y := y_offset y_pos height text_height in
  Done (image,
        mutate s1 image
          (fun im => draw_text host im (x, y) text (font st) font_color)).

End Render.


(** ** A concrete host

    A Linux machine on which every font file exists and every character
    is half an em wide; the rasteriser fills the text's box. *)

Definition half_em_length (text : string) (f : Font) : Q :=
  inject_Z (Z.of_nat (String.length text) * font_px f) / 2.

Definition box_bbox (xy : Q * Z) (text : string) (f : Font) : bbox :=
  let '(x, y) := xy in
  (x, inject_Z y, x + half_em_length text f, inject_Z (y + font_px f))%Q.

Definition box_draw (im : Image) (xy : Q * Z) (text : string) (f : Font)
  (color : RGB) : Image :=
  {| mode := mode im;
     size := size im;
     getpixel := fun i j =>
       if inside (box_bbox xy text f) i j then color else getpixel im i j |}.

Definition rows_image (a : ndarray) : Image :=
  {| mode := "RGB";
     size := (Z.of_nat (List.length (hd [] a)), Z.of_nat (List.length a));
     getpixel := fun i j =>
       nth (Z.to_nat i) (nth (Z.to_nat j) a []) (0, 0, 0)%Z |}.

Definition linux_host : Host :=
  {| platform_system := "Linux";
     path_exists := fun _ => true;
     fromarray := rows_image;
     textlength := half_em_length;
     textbbox := box_bbox;
     draw_text := box_draw |}.

Definition black_image (w h : Z) : Image := Image_new "RGB" (w, h) (0, 0, 0)%Z.

Definition empty_heap : heap :=
  {| objects := fun _ => black_image 0 0; next_ref := O |}.

(** A store holding one black 705x500 image at reference 0. *)
Definition one_image_heap : heap :=
  snd (alloc empty_heap (black_image 705 500)).

(** The call of the module's [__main__] block, with the alignment, the
    vertical position and the width fractions left open. *)
Definition sample_call (fuel : nat) (W : Z) (align : string) (y_pos : Q)
  (min_width max_width : Q) : outcome (ref * heap) :=
  add_text_to_image linux_host fuel empty_heap (Tuple W 500) "Center Aligned"
    align y_pos "Calibri" 50 min_width max_width (0, 0, 0)%Z (Some "bold").

Definition heap_of (m : outcome (ref * heap)) : heap :=
  match m with
  | Done (_, s) => s
  | _ => empty_heap
  end.

Definition calibri_bold : string := "/usr/share/fonts/truetype/Calibribd.ttf".
Definition arial : string := "/usr/share/fonts/truetype/Arial.ttf".


(** Two variations of the host: an operating system the function does
    not know, and a Linux machine without any font file. *)
Definition freebsd_host : Host :=
  {| platform_system := "FreeBSD";
     path_exists := fun _ => true;
     fromarray := rows_image;
     textlength := half_em_length;
     textbbox := box_bbox;
     draw_text := box_draw |}.

Definition fontless_host : Host :=
  {| platform_system := "Linux";
     path_exists := fun _ => false;
     fromarray := rows_image;
     textlength := half_em_length;
     textbbox := box_bbox;
     draw_text := box_draw |}.

(** * The model with Pillow's refusals *)

(** What Pillow accepts on a host, beside what it returns when it
    accepts. *)
Record Pillow : Type := {
  lib :> Host;
  accepts_array : ndarray -> bool;  (* Image.fromarray(a) makes an image   *)
  is_font : string -> bool;         (* FreeType opens the file as a font   *)
  draw_accepts : Image -> Q * Z -> string -> Font -> RGB -> bool
                                    (* draw.text takes these arguments      *)
}.

(** The errors that come out of a call the function makes, as opposed to
    the four it raises itself. *)
Definition pillow_error (e : error) : bool :=
  match e with
  | ImgInputError | UnsupportedOS | FontMissing _ | AlignError => false
  | _ => true
  end.

(** Whether the text holds a newline character (code 10), the test
    [draw.textlength] makes before it measures. *)
Fixpoint has_newline (text : string) : bool :=
  match text with
  | EmptyString => false
  | String c rest => Ascii.eqb c (ascii_of_nat 10) || has_newline rest
  end.

Module Checked.

(** ** binary64 *)

(** A Python [float]. *)
Definition float : Type := spec_float.

(** The conversion of an [int] operand, rounded to nearest. *)
Definition float_of_int (z : Z) : float := binary_normalize 53 1024 z 0 false.

(** [a * b] on floats. *)
Definition float_mul (a b : float) : float := SFmul 53 1024 a b.

(** The double nearest to [n / d]: the value of a decimal literal such as
    [0.7], read as [decimal 7 10]. *)
Definition decimal (n d : Z) : float :=
  SFdiv 53 1024 (float_of_int n) (float_of_int d).

(** [int(f)]: rounds towards zero, and refuses infinities and NaN. *)
Definition int_of_float (f : float) : outcome Z :=
  match f with
  | S754_zero _ => Done 0%Z
  | S754_finite sign m e =>
      let a := if (0 <=? e)%Z then (Zpos m * 2 ^ e)%Z
               else Z.quot (Zpos m) (2 ^ (- e)) in
      Done (if sign then (- a)%Z else a)
  | S754_infinity _ => Raised OverflowError
  | S754_nan => Raised NaNError
  end.

(** ** The calls into Pillow *)

(** [Image.new(mode, size, color)] *)
Definition Image_new (m : string) (sz : Z * Z) (color : RGB) : outcome Image :=
  if (fst sz <? 0)%Z || (snd sz <? 0)%Z then Raised ImageSizeError
  else Done (Image_new m sz color).

(** [Image.fromarray(a)] *)
Definition fromarray (p : Pillow) (a : ndarray) : outcome Image :=
  if accepts_array p a then Done (fromarray p a) else Raised ArrayError.

(** [ImageFont.truetype(font_path, font_size)] *)
Definition truetype (p : Pillow) (font_path : string) (font_size : Z)
  : outcome Font :=
  if (font_size <=? 0)%Z then Raised (FontSizeError font_size)
  else if is_font p font_path then Done (truetype font_path font_size)
  else Raised (FontFileError font_path).

(** [draw.textlength(text, font=font)] *)
Definition textlength (p : Pillow) (text : string) (f : Font) : outcome Q :=
  if has_newline text then Raised MultilineError
  else Done (textlength p text f).

(** ** The function *)

(** Lines 45-52. *)
Definition resolve_image (p : Pillow) (s : heap) (i : img_input)
  : outcome (ref * heap) :=
  match i with
  | Tuple w h =>
      im <- Image_new "RGB" (w, h) (255, 255, 255)%Z ;; Done (alloc s im)
  | Ndarray a => im <- fromarray p a ;; Done (alloc s im)
  | PILImage r => Done (r, s)
  | Other => Raised ImgInputError
  end.

(** Lines 79-80 and 89-90. *)
Definition measure (p : Pillow) (font_path text : string) (size : Z)
  : outcome fit :=
  f <- truetype p font_path size ;;
  w <- textlength p text f ;;
  Done {| font_size := size; font := f; text_width := w |}.

(** Lines 83-90. *)
Fixpoint fit_loop (p : Pillow) (fuel : nat) (font_path text : string)
  (scaled_min_width scaled_max_width : Q) (height : Z) (s : fit) : outcome fit :=
  if loop_cond scaled_min_width scaled_max_width height s then
    match fuel with
    | O => OutOfFuel
    | S n =>
        match measure p font_path text
                (if Qltb (text_width s) scaled_min_width
                 then font_size s + 1 else font_size s - 1)%Z with
        | Done s' =>
            fit_loop p n font_path text scaled_min_width scaled_max_width
              height s'
        | Raised e => Raised e
        | OutOfFuel => OutOfFuel
        end
    end
  else Done s.

(** Line 103, with [text_height = font_size] (line 93). *)
Definition y_offset (y_pos : float) (height text_height : Z) : outcome Z :=
  int_of_float (float_mul y_pos (float_of_int (height - text_height))).

(** Lines 6-107. *)
Definition add_text_to_image (p : Pillow) (fuel : nat) (s : heap)
  (img : img_input) (text align : string) (y_pos : float) (font_name : string)
  (font_size0 : Z) (min_width max_width : Q) (font_color : RGB)
  (font_type : option string) : outcome (ref * heap) :=
  '(image, s1) <- resolve_image p s img ;;
  let '(width, height) := size (objects s1 image) in
  let scaled_min_width := (min_width * inject_Z width)%Q in
  let scaled_max_width := (max_width * inject_Z width)%Q in
  font_path <- font_path (platform_system p) font_name font_type ;;
  if negb (path_exists p font_path) then Raised (FontMissing font_path) else
  s0 <- measure p font_path text font_size0 ;;
  st <- fit_loop p fuel font_path text scaled_min_width scaled_max_width
          height s0 ;;
  let text_height := font_size st in
  x <- x_offset align width (text_width st) ;;
  y <- y_offset y_pos height text_height ;;
  if draw_accepts p (objects s1 image) (x, y) text (font st) font_color then
    Done (image,
          mutate s1 image
            (fun im => draw_text p im (x, y) text (font st) font_color))
  else Raised DrawError.

End Checked.

(** The Linux host with a Pillow that converts every array, opens every
    file as a font, and draws at coordinates that fit a C [int]. *)
Definition c_int (z : Z) : bool := (- 2 ^ 31 <=? z)%Z && (z <? 2 ^ 31)%Z.

Definition linux_pillow : Pillow :=
  {| lib := linux_host;
     accepts_array := fun _ => true;
     is_font := fun _ => true;
     draw_accepts := fun _ xy _ _ _ => c_int (Qfloor (fst xy)) && c_int (snd xy) |}.

Definition freebsd_pillow : Pillow :=
  {| lib := freebsd_host;
     accepts_array := fun _ => true;
     is_font := fun _ => true;
     draw_accepts := fun _ _ _ _ _ => true |}.

Definition fontless_pillow : Pillow :=
  {| lib := fontless_host;
     accepts_array := fun _ => true;
     is_font := fun _ => true;
     draw_accepts := fun _ _ _ _ _ => true |}.

(** The call of the [__main__] block on that host, with the vertical
    position left open. *)
Definition checked_sample_call (fuel : nat) (H : Z) (y_pos : Checked.float)
  : outcome (ref * heap) :=
  Checked.add_text_to_image linux_pillow fuel empty_heap (Tuple 700 H)
    "Center Aligned" "center" y_pos "Calibri" 50 0 1 (0, 0, 0)%Z (Some "bold").

(** The same text drawn in white on the caller's image at reference 0. *)
Definition checked_overlay_call (fuel : nat) : outcome (ref * heap) :=
  Checked.add_text_to_image linux_pillow fuel one_image_heap (PILImage O)
    "Center Aligned" "center" (Checked.decimal 1 2) "Calibri" 50 0 1
    (255, 255, 255)%Z (Some "bold").

(** * Properties *)

(** ** Comparisons and rounding *)

Lemma Qltb_lt (a b : Q) : Qltb a b = true <-> (a < b)%Q.
Proof.
  unfold Qltb. rewrite negb_true_iff. split; intro H.
  - apply Qnot_le_lt. intro Hle. apply Qle_bool_iff in Hle. congruence.
  - destruct (Qle_bool b a) eqn:E; [|reflexivity].
    apply Qle_bool_iff in E. exfalso. exact (Qlt_not_le _ _ H E).
Qed.

Lemma Qltb_ge (a b : Q) : Qltb a b = false <-> (b <= a)%Q.
Proof.
  unfold Qltb. rewrite negb_false_iff. apply Qle_bool_iff.
Qed.

Lemma py_int_nonneg (q : Q) : (0 <= q)%Q -> py_int q = Qfloor q.
Proof.
  destruct q as [n d]. unfold Qle, py_int, Qfloor. simpl. intro H.
  apply Z.quot_div_nonneg; lia.
Qed.

Lemma py_int_nonpos (q : Q) : (q <= 0)%Q -> py_int q = Qceiling q.
Proof.
  destruct q as [n d]. unfold Qle, py_int, Qceiling, Qfloor. simpl. intro H.
  replace n with (- (- n))%Z at 1 by lia.
  rewrite Z.quot_opp_l by lia.
  f_equal. apply Z.quot_div_nonneg; lia.
Qed.

Lemma py_int_towards_zero (q : Q) :
  py_int q = if Qle_bool 0 q then Qfloor q else Qceiling q.
Proof.
  destruct (Qle_bool 0 q) eqn:E.
  - apply py_int_nonneg. now apply Qle_bool_iff.
  - apply py_int_nonpos. apply Qlt_le_weak. apply Qltb_lt.
    unfold Qltb. now rewrite E.
Qed.

(** ** The font-size search *)

Section Search.

Variable host : Host.
Variables font_path text : string.
Variables smin smax : Q.
Variable height : Z.

Lemma fit_loop_exit (fuel : nat) (s : fit) :
  loop_cond smin smax height s = false ->
  fit_loop host fuel font_path text smin smax height s = Done s.
Proof.
  intro H. destruct fuel; simpl; now rewrite H.
Qed.

Lemma fit_loop_step (fuel : nat) (s : fit) :
  loop_cond smin smax height s = true ->
  fit_loop host (S fuel) font_path text smin smax height s
  = fit_loop host fuel font_path text smin smax height
      (loop_body host font_path text smin s).
Proof.
  intro H. simpl. now rewrite H.
Qed.

Lemma loop_cond_false (s : fit) :
  loop_cond smin smax height s = false <->
  ((smin <= text_width s)%Q /\ (text_width s <= smax)%Q)
  \/ height <= font_size s.
Proof.
  unfold loop_cond.
  rewrite andb_false_iff, orb_false_iff, !Qltb_ge, Z.ltb_ge. tauto.
Qed.

Lemma fit_loop_Done_cond (fuel : nat) (s s' : fit) :
  fit_loop host fuel font_path text smin smax height s = Done s' ->
  loop_cond smin smax height s' = false.
Proof.
  revert s. induction fuel as [|n IH]; intros s; simpl;
    destruct (loop_cond smin smax height s) eqn:E; intro H.
  - discriminate.
  - now injection H as <-.
  - exact (IH _ H).
  - now injection H as <-.
Qed.

(** Every state the loop hands back was measured at its own size. *)
Lemma fit_loop_Done_measured (fuel : nat) (s s' : fit) :
  s = measure host font_path text (font_size s) ->
  fit_loop host fuel font_path text smin smax height s = Done s' ->
  s' = measure host font_path text (font_size s').
Proof.
  revert s. induction fuel as [|n IH]; intros s Hs; simpl;
    destruct (loop_cond smin smax height s); intro H.
  - discriminate.
  - now injection H as <-.
  - exact (IH _ (eq_refl _) H).
  - now injection H as <-.
Qed.

(** More fuel does not change a result already reached. *)
Lemma fit_loop_more_fuel (fuel extra : nat) (s s' : fit) :
  fit_loop host fuel font_path text smin smax height s = Done s' ->
  fit_loop host (fuel + extra) font_path text smin smax height s = Done s'.
Proof.
  revert s. induction fuel as [|n IH]; intros s; simpl;
    destruct (loop_cond smin smax height s) eqn:E; intro H.
  - discriminate.
  - injection H as <-. now apply fit_loop_exit.
  - exact (IH _ H).
  - exact H.
Qed.

(** When the text is never too wide the search only grows the font, and
    the bound [font_size < height] stops it. *)
Lemma fit_loop_growing_terminates (s : fit) :
  (forall z, (textlength host text (truetype font_path z) <= smax)%Q) ->
  s = measure host font_path text (font_size s) ->
  exists s',
    fit_loop host (Z.to_nat (height - font_size s)) font_path text smin smax
      height s = Done s'.
Proof.
  intros Hnarrow.
  remember (Z.to_nat (height - font_size s)) as n eqn:Hn.
  revert s Hn. induction n as [|n IH]; intros s Hn Hs.
  - exists s. apply fit_loop_exit. apply loop_cond_false. right. lia.
  - destruct (loop_cond smin smax height s) eqn:E.
    + rewrite (fit_loop_step _ _ E).
      assert (Hlt : Qltb (text_width s) smin = true).
      { unfold loop_cond in E. apply andb_true_iff in E as [E _].
        apply orb_true_iff in E as [E|E]; [exact E|].
        apply Qltb_lt in E. rewrite Hs in E. simpl in E.
        exfalso. exact (Qlt_not_le _ _ E (Hnarrow _)). }
      apply IH.
      * unfold loop_body. rewrite Hlt. simpl. lia.
      * unfold loop_body. reflexivity.
    + exists s. now apply fit_loop_exit.
Qed.

End Search.

(** ** Anatomy of a call *)

(** A call that returns went through every stage: the image was resolved,
    the font file found, the search ended in a state [st], the alignment
    was recognised, and one [draw.text] was issued on the resolved image. *)
Lemma add_text_to_image_Done_inv (host : Host) (fuel : nat) (s : heap)
  (img : img_input) (text align : string) (y_pos : Q) (font_name : string)
  (font_size0 : Z) (min_width max_width : Q) (font_color : RGB)
  (font_type : option string) (r : ref) (s' : heap) :
  add_text_to_image host fuel s img text align y_pos font_name font_size0
    min_width max_width font_color font_type = Done (r, s') ->
  exists s1 path st x,
    resolve_image host s img = Done (r, s1) /\
    font_path (platform_system host) font_name font_type = Done path /\
    path_exists host path = true /\
    fit_loop host fuel path text
      (min_width * inject_Z (fst (size (objects s1 r))))
      (max_width * inject_Z (fst (size (objects s1 r))))
      (snd (size (objects s1 r)))
      (measure host path text font_size0) = Done st /\
    x_offset align (fst (size (objects s1 r))) (text_width st) = Done x /\
    s' = mutate s1 r
           (fun im =>
              draw_text host im
                (x, y_offset y_pos (snd (size (objects s1 r))) (font_size st))
                text (font st) font_color).
Proof.
  unfold add_text_to_image.
  destruct (resolve_image host s img) as [[r1 s1]| |] eqn:Hres; simpl;
    try discriminate.
  destruct (size (objects s1 r1)) as [width height] eqn:Hsize.
  destruct (font_path (platform_system host) font_name font_type)
    as [path| |] eqn:Hpath; simpl; try discriminate.
  destruct (path_exists host path) eqn:Hex; simpl; try discriminate.
  destruct (fit_loop host fuel path text (min_width * inject_Z width)
              (max_width * inject_Z width) height
              (measure host path text font_size0)) as [st| |] eqn:Hfit;
    simpl; try discriminate.
  destruct (x_offset align width (text_width st)) as [x| |] eqn:Hx; simpl;
    try discriminate.
  intro H. injection H as <- <-.
  exists s1, path, st, x. rewrite Hsize. simpl. auto 10.
Qed.

Lemma objects_mutate_same (s : heap) (r : ref) (f : Image -> Image) :
  objects (mutate s r f) r = f (objects s r).
Proof. simpl. unfold upd. now rewrite Nat.eqb_refl. Qed.

Lemma objects_mutate_other (s : heap) (r r' : ref) (f : Image -> Image) :
  r' <> r -> objects (mutate s r f) r' = objects s r'.
Proof.
  intro H. simpl. unfold upd. apply Nat.eqb_neq in H. now rewrite H.
Qed.

(** ** Claims *)

(** C3. Whenever the font-size search hands back a state, that state
    satisfies the postcondition: its text width, measured at its font
    size, lies between [min_width * W] and [max_width * W], or its font
    size is at least the image height [H]. *)
Theorem fit_loop_postcondition (host : Host) (fuel : nat)
  (path text : string) (min_width max_width : Q) (W H font_size0 : Z)
  (st : fit) :
  fit_loop host fuel path text (min_width * inject_Z W) (max_width * inject_Z W)
    H (measure host path text font_size0) = Done st ->
  text_width st = textlength host text (truetype path (font_size st)) /\
  (((min_width * inject_Z W <= text_width st)%Q /\
    (text_width st <= max_width * inject_Z W)%Q)
   \/ H <= font_size st).
Proof.
  intro Hfit. split.
  - pose proof (fit_loop_Done_measured _ _ _ _ _ _ _ _ _ (eq_refl _) Hfit) as Hm.
    rewrite Hm at 1. reflexivity.
  - apply loop_cond_false. exact (fit_loop_Done_cond _ _ _ _ _ _ _ _ _ Hfit).
Qed.

Lemma fit_loop_postcondition_witness :
  exists st,
    fit_loop linux_host 10 "/usr/share/fonts/truetype/Arial.ttf" "Hello"
      ((1 # 2) * inject_Z 100)%Q ((3 # 4) * inject_Z 100)%Q 80
      (measure linux_host "/usr/share/fonts/truetype/Arial.ttf" "Hello" 15)
    = Done st /\
    text_width st
    = textlength linux_host "Hello"
        (truetype "/usr/share/fonts/truetype/Arial.ttf" (font_size st)) /\
    ((((1 # 2) * inject_Z 100 <= text_width st)%Q /\
      (text_width st <= (3 # 4) * inject_Z 100)%Q)
     \/ 80 <= font_size st).
Proof.
  eexists. split.
  - vm_compute. reflexivity.
  - apply (fit_loop_postcondition linux_host 10
             "/usr/share/fonts/truetype/Arial.ttf" "Hello" (1 # 2) (3 # 4)
             100 80 15).
    vm_compute. reflexivity.
Defined.

(** C4. The horizontal offset follows the alignment: ['left'] gives 0;
    ['center'] gives [(W - text_width) / 2] rounded down, so less than one
    pixel below it; ['right'] gives an [x] with [x + text_width = W]. *)
Theorem x_offset_by_alignment (W : Z) (tw : Q) :
  x_offset "left" W tw = Done 0%Q /\
  (exists x, x_offset "center" W tw = Done x /\
     (x <= (inject_Z W - tw) / 2)%Q /\ ((inject_Z W - tw) / 2 < x + 1)%Q) /\
  (exists x, x_offset "right" W tw = Done x /\ (x + tw == inject_Z W)%Q).
Proof.
  split; [reflexivity|]. split.
  - eexists. split; [reflexivity|]. unfold py_floordiv. split.
    + apply Qfloor_le.
    + change 1%Q with (inject_Z 1). rewrite <- inject_Z_plus.
      apply Qlt_floor.
  - eexists. split; [reflexivity|]. ring.
Qed.

(** C6. The filename suffix is a function of [font_type] alone: no style
    gives [.ttf], ['italic'] gives [i.ttf], ['bold'] gives [bd.ttf], and
    every other value, the bold+italic style included, gives [.ttf].
    The directory in front of the font name is a function of the host OS
    alone: the macOS, Linux or Windows system font location, and no path
    at all on any other OS. *)
Theorem font_path_suffix_and_directory :
  font_extension None = ".ttf" /\
  font_extension (Some "italic") = "i.ttf" /\
  font_extension (Some "bold") = "bd.ttf" /\
  font_extension (Some "bold/italic") = ".ttf" /\
  (forall t, t <> "italic" -> t <> "bold" -> font_extension (Some t) = ".ttf") /\
  exists base : string -> option string,
    base "Darwin" = Some "/System/Library/Fonts/" /\
    base "Linux" = Some "/usr/share/fonts/truetype/" /\
    base "Windows"
    = Some ("C:" ++ backslash ++ "Windows" ++ backslash ++ "Fonts" ++ backslash) /\
    (forall os, os <> "Darwin" -> os <> "Linux" -> os <> "Windows" ->
                base os = None) /\
    forall os font_name font_type,
      font_path os font_name font_type
      = match base os with
        | Some dir => Done (dir ++ font_name ++ font_extension font_type)
        | None => Raised UnsupportedOS
        end.
Proof.
  repeat (split; [reflexivity|]). split.
  - intros t Hi Hb. unfold font_extension, is_font_type.
    apply String.eqb_neq in Hi, Hb. now rewrite Hi, Hb.
  - exists (fun os =>
              if String.eqb os "Darwin" then Some "/System/Library/Fonts/"
              else if String.eqb os "Linux" then Some "/usr/share/fonts/truetype/"
              else if String.eqb os "Windows" then
                Some ("C:" ++ backslash ++ "Windows" ++ backslash ++ "Fonts"
                        ++ backslash)
              else None).
    repeat (split; [reflexivity|]). split.
    + intros os Hd Hl Hw. apply String.eqb_neq in Hd, Hl, Hw.
      now rewrite Hd, Hl, Hw.
    + intros os font_name font_type. unfold font_path.
      destruct (String.eqb os "Darwin"); [reflexivity|].
      destruct (String.eqb os "Linux"); [reflexivity|].
      destruct (String.eqb os "Windows"); reflexivity.
Qed.

Lemma font_path_suffix_and_directory_witness :
  font_extension (Some "oblique") = ".ttf".
Proof.
  destruct font_path_suffix_and_directory as (_ & _ & _ & _ & Hother & _).
  apply Hother; discriminate.
Defined.

(** ** Non-termination of the search *)

(** Once the resolution of the image and of the font file have succeeded,
    a call is the search followed by the placement and the drawing. *)
Lemma add_text_to_image_stages (host : Host) (fuel : nat) (s : heap)
  (img : img_input) (text align : string) (y_pos : Q) (font_name : string)
  (font_size0 : Z) (min_width max_width : Q) (font_color : RGB)
  (font_type : option string) (r : ref) (s1 : heap) (path : string) :
  resolve_image host s img = Done (r, s1) ->
  font_path (platform_system host) font_name font_type = Done path ->
  path_exists host path = true ->
  add_text_to_image host fuel s img text align y_pos font_name font_size0
    min_width max_width font_color font_type
  = (st <- fit_loop host fuel path text
             (min_width * inject_Z (fst (size (objects s1 r))))
             (max_width * inject_Z (fst (size (objects s1 r))))
             (snd (size (objects s1 r)))
             (measure host path text font_size0) ;;
     x <- x_offset align (fst (size (objects s1 r))) (text_width st) ;;
     Done (r,
           mutate s1 r
             (fun im =>
                draw_text host im
                  (x, y_offset y_pos (snd (size (objects s1 r))) (font_size st))
                  text (font st) font_color))).
Proof.
  intros Hres Hpath Hex. unfold add_text_to_image.
  rewrite Hres. simpl. destruct (size (objects s1 r)) as [width height].
  rewrite Hpath. simpl. rewrite Hex. reflexivity.
Qed.

Lemma fit_loop_stuck (host : Host) (path text : string) (smin smax : Q)
  (H : Z) (s : fit) :
  loop_cond smin smax H s = true ->
  fit_loop host 0 path text smin smax H s = OutOfFuel.
Proof. intro Hc. simpl. now rewrite Hc. Qed.

(** The search cycles between two neighbouring sizes as soon as the text
    is too narrow at one and too wide at the next: no size below [height]
    is ever left, so the bound of the loop never applies. *)
Lemma fit_loop_oscillates (host : Host) (path text : string) (smin smax : Q)
  (H a : Z) (fuel : nat) :
  a + 1 < H ->
  (textlength host text (truetype path a) < smin)%Q ->
  (smin <= textlength host text (truetype path (a + 1)))%Q ->
  (smax < textlength host text (truetype path (a + 1)))%Q ->
  fit_loop host fuel path text smin smax H (measure host path text a)
  = OutOfFuel /\
  fit_loop host fuel path text smin smax H (measure host path text (a + 1))
  = OutOfFuel.
Proof.
  intros Hlt Hnarrow Hmin Hwide.
  apply Qltb_lt in Hnarrow, Hwide. apply Qltb_ge in Hmin.
  assert (Clo : loop_cond smin smax H (measure host path text a) = true).
  { unfold loop_cond. simpl. rewrite Hnarrow. simpl. apply Z.ltb_lt. lia. }
  assert (Chi : loop_cond smin smax H (measure host path text (a + 1)) = true).
  { unfold loop_cond. simpl. rewrite Hwide, orb_true_r. simpl.
    apply Z.ltb_lt. lia. }
  assert (Blo : loop_body host path text smin (measure host path text a)
                = measure host path text (a + 1)).
  { unfold loop_body. simpl. now rewrite Hnarrow. }
  assert (Bhi : loop_body host path text smin (measure host path text (a + 1))
                = measure host path text a).
  { unfold loop_body. simpl. rewrite Hmin. f_equal. lia. }
  induction fuel as [|n [IHlo IHhi]].
  - split; apply fit_loop_stuck; assumption.
  - split.
    + rewrite (fit_loop_step _ _ _ _ _ _ _ _ Clo), Blo. exact IHhi.
    + rewrite (fit_loop_step _ _ _ _ _ _ _ _ Chi), Bhi. exact IHlo.
Qed.

(** On a 705 pixel wide image with both width fractions at one half, the
    text "Center Aligned" is too narrow at size 50 (350 pixels) and too
    wide at size 51 (357 pixels). *)
Lemma sample_search_out_of_fuel (fuel : nat) :
  fit_loop linux_host fuel calibri_bold "Center Aligned"
    ((1 # 2) * inject_Z 705) ((1 # 2) * inject_Z 705) 500
    (measure linux_host calibri_bold "Center Aligned" 50) = OutOfFuel.
Proof.
  apply (fit_loop_oscillates linux_host calibri_bold "Center Aligned"
           ((1 # 2) * inject_Z 705) ((1 # 2) * inject_Z 705) 500 50 fuel).
  - lia.
  - vm_compute. reflexivity.
  - vm_compute. discriminate.
  - vm_compute. reflexivity.
Qed.

Lemma sample_call_out_of_fuel (fuel : nat) (align : string) (y_pos : Q) :
  sample_call fuel 705 align y_pos (1 # 2) (1 # 2) = OutOfFuel.
Proof.
  unfold sample_call.
  rewrite (add_text_to_image_stages linux_host fuel empty_heap (Tuple 705 500)
             "Center Aligned" align y_pos "Calibri" 50 (1 # 2) (1 # 2)
             (0, 0, 0) (Some "bold") O
             (snd (alloc empty_heap (Image_new "RGB" (705, 500) (255, 255, 255))))
             calibri_bold (eq_refl _) (eq_refl _) (eq_refl _)).
  change (fst (size (objects
            (snd (alloc empty_heap (Image_new "RGB" (705, 500) (255, 255, 255))))
            O))) with 705.
  change (snd (size (objects
            (snd (alloc empty_heap (Image_new "RGB" (705, 500) (255, 255, 255))))
            O))) with 500.
  now rewrite sample_search_out_of_fuel.
Qed.

(** C1. The search does not terminate on every call: for the text
    "Center Aligned" on a new 705x500 image, started at font size 50 with
    [min_width = max_width = 0.5], the loop is still running after any
    number of iterations; the sizes it visits, 50 and 51, stay below the
    image height 500, so the bound [font_size < height] never stops it. *)
Theorem font_size_search_runs_forever (fuel : nat) :
  sample_call fuel 705 "center" (1 # 2) (1 # 2) (1 # 2) = OutOfFuel /\
  fit_loop linux_host fuel calibri_bold "Center Aligned"
    ((1 # 2) * inject_Z 705) ((1 # 2) * inject_Z 705) 500
    (measure linux_host calibri_bold "Center Aligned" 50) = OutOfFuel.
Proof.
  split.
  - apply sample_call_out_of_fuel.
  - apply sample_search_out_of_fuel.
Qed.

(** ** Errors *)

Lemma fit_loop_not_raised (host : Host) (fuel : nat) (path text : string)
  (smin smax : Q) (H : Z) (s : fit) (e : error) :
  fit_loop host fuel path text smin smax H s <> Raised e.
Proof.
  revert s. induction fuel as [|n IH]; intros s; simpl;
    destruct (loop_cond smin smax H s); try discriminate.
  apply IH.
Qed.

Lemma x_offset_raised (align : string) (W : Z) (tw : Q) (e : error) :
  x_offset align W tw = Raised e <->
  e = AlignError /\ align <> "left" /\ align <> "center" /\ align <> "right".
Proof.
  unfold x_offset.
  destruct (String.eqb_spec align "left") as [->|Hl].
  { split; [discriminate|]. intros (_ & H & _). now elim H. }
  destruct (String.eqb_spec align "center") as [->|Hc].
  { split; [discriminate|]. intros (_ & _ & H & _). now elim H. }
  destruct (String.eqb_spec align "right") as [->|Hr].
  { split; [discriminate|]. intros (_ & _ & _ & H). now elim H. }
  split.
  - intro H. injection H as <-. auto.
  - now intros (-> & _).
Qed.

Lemma font_path_raised (os font_name : string) (font_type : option string)
  (e : error) :
  font_path os font_name font_type = Raised e <->
  e = UnsupportedOS /\ os <> "Darwin" /\ os <> "Linux" /\ os <> "Windows".
Proof.
  unfold font_path.
  destruct (String.eqb_spec os "Darwin") as [->|Hd].
  { split; [discriminate|]. intros (_ & H & _). now elim H. }
  destruct (String.eqb_spec os "Linux") as [->|Hl].
  { split; [discriminate|]. intros (_ & _ & H & _). now elim H. }
  destruct (String.eqb_spec os "Windows") as [->|Hw].
  { split; [discriminate|]. intros (_ & _ & _ & H). now elim H. }
  split.
  - intro H. injection H as <-. auto.
  - now intros (-> & _).
Qed.

(** An unrecognised alignment is reported once the search has ended. *)
Lemma raised_after_search (host : Host) (fuel : nat) (s : heap)
  (img : img_input) (text align : string) (y_pos : Q) (font_name : string)
  (font_size0 : Z) (min_width max_width : Q) (font_color : RGB)
  (font_type : option string) (r : ref) (s1 : heap) (path : string) (st : fit) :
  resolve_image host s img = Done (r, s1) ->
  font_path (platform_system host) font_name font_type = Done path ->
  path_exists host path = true ->
  fit_loop host fuel path text
    (min_width * inject_Z (fst (size (objects s1 r))))
    (max_width * inject_Z (fst (size (objects s1 r))))
    (snd (size (objects s1 r)))
    (measure host path text font_size0) = Done st ->
  align <> "left" -> align <> "center" -> align <> "right" ->
  add_text_to_image host fuel s img text align y_pos font_name font_size0
    min_width max_width font_color font_type = Raised AlignError.
Proof.
  intros Hres Hpath Hex Hfit Hl Hc Hr.
  rewrite (add_text_to_image_stages _ _ _ _ _ _ _ _ _ _ _ _ _ _ _ _
             Hres Hpath Hex), Hfit.
  simpl.
  assert (Hx : x_offset align (fst (size (objects s1 r))) (text_width st)
               = Raised AlignError) by (apply x_offset_raised; auto).
  now rewrite Hx.
Qed.

(** C2. An invalid [align] is not always reported: in the call of C1 with
    [align = 'middle'], a value [x_offset] rejects, the search never ends
    and no error is raised, whatever the number of iterations allowed. *)
Theorem invalid_align_not_raised (fuel : nat) (tw : Q) :
  x_offset "middle" 705 tw = Raised AlignError /\
  sample_call fuel 705 "middle" (1 # 2) (1 # 2) (1 # 2) = OutOfFuel /\
  raised (sample_call fuel 705 "middle" (1 # 2) (1 # 2) (1 # 2)) = None.
Proof.
  split; [reflexivity|]. rewrite sample_call_out_of_fuel. split; reflexivity.
Qed.

(** ** The image a call works on *)




(** * Further properties of the search *)

Section SearchBounds.

Variable host : Host.
Variables path text : string.
Variables smin smax : Q.
Variable H : Z.

(** The search never grows the font beyond the image height: the size it
    ends with is at most the larger of the initial size and the height. *)
Theorem fit_loop_font_size_upper_bound (fuel : nat) (s s' : fit) :
  fit_loop host fuel path text smin smax H s = Done s' ->
  font_size s' <= Z.max (font_size s) H.
Proof.
  revert s. induction fuel as [|n IH]; intros s; simpl;
    destruct (loop_cond smin smax H s) eqn:E; intro Hrun.
  - discriminate.
  - injection Hrun as <-. lia.
  - apply IH in Hrun. unfold loop_cond in E.
    apply andb_true_iff in E as [_ E]. apply Z.ltb_lt in E.
    unfold loop_body in Hrun. simpl in Hrun.
    destruct (Qltb (text_width s) smin); lia.
  - injection Hrun as <-. lia.
Qed.

(** With an empty window, [max_width * W < min_width * W], no size fits:
    the search can only end by reaching the image height. *)
Theorem fit_loop_empty_window (fuel : nat) (s s' : fit) :
  (smax < smin)%Q ->
  fit_loop host fuel path text smin smax H s = Done s' ->
  H <= font_size s'.
Proof.
  intros Hempty Hrun. apply fit_loop_Done_cond in Hrun.
  apply loop_cond_false in Hrun as [[Hlo Hhi]|Hge]; [|exact Hge].
  exfalso. apply (Qlt_irrefl smax).
  eapply Qlt_le_trans; [exact Hempty|]. eapply Qle_trans; eassumption.
Qed.

(** Growing.  When the text is not too wide at any size from the initial
    one up to the height, the search ends within [H - font_size0]
    iterations, at the first size from [font_size0] upwards at which the
    text is no longer too narrow, or at the height if there is none. *)
Theorem fit_loop_grows_to_first_fit (font_size0 : Z) :
  (forall z, font_size0 <= z < H ->
             (textlength host text (truetype path z) <= smax)%Q) ->
  exists st,
    fit_loop host (Z.to_nat (H - font_size0)) path text smin smax H
      (measure host path text font_size0) = Done st /\
    font_size0 <= font_size st <= Z.max font_size0 H /\
    (forall z, font_size0 <= z < font_size st ->
               (textlength host text (truetype path z) < smin)%Q) /\
    ((smin <= text_width st)%Q \/ H <= font_size st).
Proof.
  remember (Z.to_nat (H - font_size0)) as n eqn:Hn.
  revert font_size0 Hn. induction n as [|n IH]; intros font_size0 Hn Hnarrow.
  - exists (measure host path text font_size0). split.
    + apply fit_loop_exit. apply loop_cond_false. right. simpl. lia.
    + simpl. split; [lia|]. split; [intros z Hz; lia|]. right. lia.
  - destruct (loop_cond smin smax H (measure host path text font_size0)) eqn:E.
    + assert (Hlt : font_size0 < H).
      { unfold loop_cond in E. apply andb_true_iff in E as [_ E].
        now apply Z.ltb_lt in E. }
      assert (Hsmall : Qltb (textlength host text (truetype path font_size0))
                         smin = true).
      { unfold loop_cond in E. apply andb_true_iff in E as [E _]. simpl in E.
        apply orb_true_iff in E as [E|E]; [exact E|].
        apply Qltb_lt in E. exfalso.
        exact (Qlt_not_le _ _ E (Hnarrow font_size0 ltac:(lia))). }
      destruct (IH (font_size0 + 1)) as (st & Hrun & Hrange & Hbelow & Hend).
      * lia.
      * intros z Hz. apply Hnarrow. lia.
      * exists st. split.
        { rewrite (fit_loop_step _ _ _ _ _ _ _ _ E). unfold loop_body.
          simpl. rewrite Hsmall. exact Hrun. }
        split; [lia|]. split; [|exact Hend].
        intros z Hz. destruct (Z.eq_dec z font_size0) as [->|Hne].
        { now apply Qltb_lt. }
        { apply Hbelow. lia. }
    + exists (measure host path text font_size0). split.
      * now apply fit_loop_exit.
      * simpl. split; [lia|]. split; [intros z Hz; lia|].
        apply loop_cond_false in E as [[Hlo _]|Hge]; [left|right]; assumption.
Qed.

(** Shrinking.  Started below the height with a text that is too wide, the
    search ends at the largest size not above the initial one at which the
    text fits, provided there is such a size [z0] and the text is not too
    narrow at any size from [z0] to the initial one; it takes at most
    [font_size0 - z0] iterations. *)
Theorem fit_loop_shrinks_to_largest_fit (font_size0 z0 : Z) :
  font_size0 < H ->
  z0 <= font_size0 ->
  (textlength host text (truetype path z0) <= smax)%Q ->
  (forall z, z0 <= z <= font_size0 ->
             (smin <= textlength host text (truetype path z))%Q) ->
  exists st,
    fit_loop host (Z.to_nat (font_size0 - z0)) path text smin smax H
      (measure host path text font_size0) = Done st /\
    z0 <= font_size st <= font_size0 /\
    (smin <= text_width st)%Q /\ (text_width st <= smax)%Q /\
    (forall z, font_size st < z <= font_size0 ->
               (smax < textlength host text (truetype path z))%Q).
Proof.
  remember (Z.to_nat (font_size0 - z0)) as n eqn:Hn.
  revert font_size0 Hn.
  induction n as [|n IH]; intros font_size0 Hn Hlt Hle Hfits Hwide.
  - assert (font_size0 = z0) by lia. subst font_size0.
    exists (measure host path text z0). split.
    + apply fit_loop_exit. apply loop_cond_false. left. simpl.
      split; [apply Hwide; lia|exact Hfits].
    + simpl. split; [lia|]. split; [apply Hwide; lia|].
      split; [exact Hfits|]. intros z Hz. lia.
  - destruct (loop_cond smin smax H (measure host path text font_size0)) eqn:E.
    + assert (Hbig : (smax < textlength host text (truetype path font_size0))%Q).
      { unfold loop_cond in E. apply andb_true_iff in E as [E _]. simpl in E.
        apply orb_true_iff in E as [E|E]; [|now apply Qltb_lt].
        apply Qltb_lt in E. exfalso.
        exact (Qlt_not_le _ _ E (Hwide font_size0 ltac:(lia))). }
      assert (Hok : Qltb (textlength host text (truetype path font_size0)) smin
                    = false) by (apply Qltb_ge; apply Hwide; lia).
      destruct (IH (font_size0 - 1)) as (st & Hrun & Hrange & Hlo & Hhi & Habove).
      * lia.
      * lia.
      * lia.
      * exact Hfits.
      * intros z Hz. apply Hwide. lia.
      * exists st. split.
        { rewrite (fit_loop_step _ _ _ _ _ _ _ _ E). unfold loop_body.
          simpl. rewrite Hok. exact Hrun. }
        split; [lia|]. split; [exact Hlo|]. split; [exact Hhi|].
        intros z Hz. destruct (Z.eq_dec z font_size0) as [->|Hne].
        { exact Hbig. }
        { apply Habove. lia. }
    + exists (measure host path text font_size0). split.
      * now apply fit_loop_exit.
      * apply loop_cond_false in E as [[Hlo Hhi]|Hge]; [|simpl in Hge; lia].
        simpl. split; [lia|]. split; [exact Hlo|]. split; [exact Hhi|].
        intros z Hz. lia.
Qed.

End SearchBounds.

(** * Further properties of a call *)


(** A call runs for ever as soon as two neighbouring sizes below the image
    height straddle the window: the text too narrow at the initial size and
    too wide at the next one.  No iteration budget is enough, and neither a
    result nor an error comes back. *)
Theorem call_runs_forever_between_sizes (host : Host) (fuel : nat) (s : heap)
  (img : img_input) (text align : string) (y_pos : Q) (font_name : string)
  (font_size0 : Z) (min_width max_width : Q) (font_color : RGB)
  (font_type : option string) (r : ref) (s1 : heap) (path : string) :
  resolve_image host s img = Done (r, s1) ->
  font_path (platform_system host) font_name font_type = Done path ->
  path_exists host path = true ->
  font_size0 + 1 < snd (size (objects s1 r)) ->
  (textlength host text (truetype path font_size0)
   < min_width * inject_Z (fst (size (objects s1 r))))%Q ->
  (min_width * inject_Z (fst (size (objects s1 r)))
   <= textlength host text (truetype path (font_size0 + 1)))%Q ->
  (max_width * inject_Z (fst (size (objects s1 r)))
   < textlength host text (truetype path (font_size0 + 1)))%Q ->
  add_text_to_image host fuel s img text align y_pos font_name font_size0
    min_width max_width font_color font_type = OutOfFuel.
Proof.
  intros Hres Hpath Hex Hlt Hnarrow Hmin Hwide.
  rewrite (add_text_to_image_stages _ _ _ _ _ _ _ _ _ _ _ _ _ _ _ _
             Hres Hpath Hex).
  destruct (fit_loop_oscillates host path text _ _ _ _ fuel
              Hlt Hnarrow Hmin Hwide) as [Hrun _].
  now rewrite Hrun.
Qed.

(** A text that is not wider than the image is placed inside it
    horizontally, whatever the alignment. *)
Theorem x_offset_inside_image (align : string) (W : Z) (tw x : Q) :
  (0 <= tw)%Q -> (tw <= inject_Z W)%Q ->
  x_offset align W tw = Done x ->
  (0 <= x)%Q /\ (x + tw <= inject_Z W)%Q.
Proof.
  intros H0 HW. unfold x_offset.
  destruct (String.eqb align "left").
  { intro E. injection E as <-. split; lra. }
  destruct (String.eqb align "center").
  { intro E. injection E as <-. unfold py_floordiv.
    assert (Hhalf : (0 <= (inject_Z W - tw) / inject_Z 2)%Q).
    { apply Qle_shift_div_l; [reflexivity|]. lra. }
    pose proof (Qfloor_le ((inject_Z W - tw) / inject_Z 2)) as Hfl.
    pose proof (Qfloor_resp_le _ _ Hhalf) as Hpos.
    change (Qfloor 0) with 0 in Hpos.
    split.
    - change 0%Q with (inject_Z 0). now rewrite <- Zle_Qle.
    - assert (Hup : ((inject_Z W - tw) / inject_Z 2 <= inject_Z W - tw)%Q).
      { apply Qle_shift_div_r; [reflexivity|].
        change (inject_Z 2) with 2%Q. lra. }
      lra. }
  destruct (String.eqb align "right").
  { intro E. injection E as <-. split; lra. }
  discriminate.
Qed.

(** A text wider than the image starts left of it when centred or
    right-aligned. *)
Theorem x_offset_overflow (W : Z) (tw : Q) :
  (inject_Z W < tw)%Q ->
  (exists x, x_offset "center" W tw = Done x /\ (x < 0)%Q) /\
  (exists x, x_offset "right" W tw = Done x /\ (x < 0)%Q).
Proof.
  intro Hwide. split; eexists; (split; [reflexivity|]).
  - unfold py_floordiv.
    pose proof (Qfloor_le ((inject_Z W - tw) / inject_Z 2)) as Hfl.
    assert (Hneg : ((inject_Z W - tw) / inject_Z 2 < 0)%Q).
    { apply Qlt_shift_div_r; [reflexivity|]. lra. }
    lra.
  - lra.
Qed.

(** With [y_pos] between 0 and 1 and a font no higher than the image, the
    text is placed inside the image vertically: [0 <= y <= H - font_size].
    [y_pos = 0] puts it at the top, [y_pos = 1] at [H - font_size]. *)
Theorem y_offset_inside_image (y_pos : Q) (H text_height : Z) :
  (0 <= y_pos)%Q -> (y_pos <= 1)%Q -> text_height <= H ->
  0 <= y_offset y_pos H text_height <= H - text_height.
Proof.
  intros H0 H1 Hfit. unfold y_offset.
  assert (Hn : (0 <= inject_Z (H - text_height))%Q).
  { change 0%Q with (inject_Z 0). rewrite <- Zle_Qle. lia. }
  assert (Hlo : (0 <= y_pos * inject_Z (H - text_height))%Q)
    by (apply Qmult_le_0_compat; assumption).
  assert (Hhi : (y_pos * inject_Z (H - text_height)
                 <= inject_Z (H - text_height))%Q).
  { pose proof (Qmult_le_compat_r _ _ _ H1 Hn) as Hmul.
    now rewrite Qmult_1_l in Hmul. }
  rewrite py_int_nonneg by exact Hlo.
  apply Qfloor_resp_le in Hlo, Hhi.
  rewrite Qfloor_Z in Hhi. change (Qfloor 0) with 0 in Hlo. lia.
Qed.

Lemma y_offset_top_and_bottom (H text_height : Z) :
  y_offset 0 H text_height = 0 /\ y_offset 1 H text_height = H - text_height.
Proof.
  unfold y_offset, py_int. split.
  - reflexivity.
  - change (Z.quot (1 * (H - text_height)) 1 = H - text_height).
    rewrite Z.mul_1_l. apply Z.quot_1_r.
Qed.

(** A call changes no image but the one it returns.  With a tuple or an
    array the returned image is a new object, so that no image that
    existed before the call is changed at all. *)
Theorem other_images_untouched (host : Host) (fuel : nat) (s : heap)
  (img : img_input) (text align : string) (y_pos : Q) (font_name : string)
  (font_size0 : Z) (min_width max_width : Q) (font_color : RGB)
  (font_type : option string) (r : ref) (s' : heap) :
  add_text_to_image host fuel s img text align y_pos font_name font_size0
    min_width max_width font_color font_type = Done (r, s') ->
  (forall r', r' <> r -> objects s' r' = objects s r') /\
  (forall w h, img = Tuple w h ->
     r = next_ref s /\ next_ref s' = S (next_ref s) /\
     forall r', (r' < next_ref s)%nat -> objects s' r' = objects s r') /\
  (forall a, img = Ndarray a ->
     r = next_ref s /\ next_ref s' = S (next_ref s) /\
     forall r', (r' < next_ref s)%nat -> objects s' r' = objects s r').
Proof.
  intro Hcall.
  apply add_text_to_image_Done_inv in Hcall
    as (s1 & path & st & x & Hres & _ & _ & _ & _ & ->).
  assert (Hother : forall r', r' <> r ->
            objects (mutate s1 r
                       (fun im =>
                          draw_text host im
                            (x, y_offset y_pos (snd (size (objects s1 r)))
                                  (font_size st))
                            text (font st) font_color)) r'
            = objects s r').
  { intros r' Hne. rewrite objects_mutate_other by exact Hne.
    destruct img as [w h|a|r0|]; simpl in Hres; try discriminate;
      injection Hres as <- <-; try reflexivity;
      simpl; unfold upd; apply Nat.eqb_neq in Hne; now rewrite Hne. }
  split; [exact Hother|]. split.
  - intros w h ->. simpl in Hres. injection Hres as <- <-.
    split; [reflexivity|]. split; [reflexivity|].
    intros r' Hr'. apply Hother. lia.
  - intros a ->. simpl in Hres. injection Hres as <- <-.
    split; [reflexivity|]. split; [reflexivity|].
    intros r' Hr'. apply Hother. lia.
Qed.

(** * Instances on the concrete hosts *)

Lemma raised_after_search_witness :
  add_text_to_image linux_host 0 empty_heap (Tuple 700 500) "Center Aligned"
    "middle" (1 # 2) "Calibri" 50 0 1 (0, 0, 0) (Some "bold")
  = Raised AlignError.
Proof.
  apply (raised_after_search linux_host 0 empty_heap (Tuple 700 500)
           "Center Aligned" "middle" (1 # 2) "Calibri" 50 0 1 (0, 0, 0)
           (Some "bold") O
           (snd (alloc empty_heap (Image_new "RGB" (700, 500) (255, 255, 255))))
           calibri_bold (measure linux_host calibri_bold "Center Aligned" 50)).
  - reflexivity.
  - reflexivity.
  - reflexivity.
  - vm_compute. reflexivity.
  - discriminate.
  - discriminate.
  - discriminate.
Defined.

Lemma fit_loop_font_size_upper_bound_witness :
  font_size (measure linux_host arial "Hello" 20)
  <= Z.max (font_size (measure linux_host arial "Hello" 15)) 80.
Proof.
  apply (fit_loop_font_size_upper_bound linux_host arial "Hello" 50 75 80
           10%nat).
  vm_compute. reflexivity.
Defined.

Lemma fit_loop_empty_window_witness :
  18 <= font_size (measure linux_host arial "Hello" 18).
Proof.
  apply (fit_loop_empty_window linux_host arial "Hello" 75 50 18 3%nat
           (measure linux_host arial "Hello" 15)).
  - reflexivity.
  - vm_compute. reflexivity.
Defined.

Lemma half_em_hello (z : Z) :
  (textlength linux_host "Hello" (truetype arial z) == inject_Z (5 * z) / 2)%Q.
Proof. reflexivity. Qed.

Lemma fit_loop_grows_to_first_fit_witness :
  exists st,
    fit_loop linux_host (Z.to_nat (80 - 15)) arial "Hello" 50 1000 80
      (measure linux_host arial "Hello" 15) = Done st /\
    15 <= font_size st <= Z.max 15 80 /\
    (forall z, 15 <= z < font_size st ->
               (textlength linux_host "Hello" (truetype arial z) < 50)%Q) /\
    ((50 <= text_width st)%Q \/ 80 <= font_size st).
Proof.
  apply (fit_loop_grows_to_first_fit linux_host arial "Hello" 50 1000 80 15).
  intros z Hz. rewrite half_em_hello.
  apply Qle_shift_div_r; [reflexivity|].
  change (1000 * 2)%Q with (inject_Z 2000). rewrite <- Zle_Qle. lia.
Defined.

Lemma fit_loop_shrinks_to_largest_fit_witness :
  exists st,
    fit_loop linux_host (Z.to_nat (25 - 20)) arial "Hello" 0 50 100
      (measure linux_host arial "Hello" 25) = Done st /\
    20 <= font_size st <= 25 /\
    (0 <= text_width st)%Q /\ (text_width st <= 50)%Q /\
    (forall z, font_size st < z <= 25 ->
               (50 < textlength linux_host "Hello" (truetype arial z))%Q).
Proof.
  apply (fit_loop_shrinks_to_largest_fit linux_host arial "Hello" 0 50 100
           25 20).
  - lia.
  - lia.
  - vm_compute. discriminate.
  - intros z Hz. rewrite half_em_hello.
    apply Qle_shift_div_l; [reflexivity|].
    change (0 * 2)%Q with (inject_Z 0). rewrite <- Zle_Qle. lia.
Defined.


Lemma call_runs_forever_between_sizes_witness :
  add_text_to_image linux_host 1000 empty_heap (Tuple 705 500)
    "Center Aligned" "left" 0 "Calibri" 50 (1 # 2) (1 # 2) (0, 0, 0)
    (Some "bold") = OutOfFuel.
Proof.
  apply (call_runs_forever_between_sizes linux_host 1000 empty_heap
           (Tuple 705 500) "Center Aligned" "left" 0 "Calibri" 50 (1 # 2)
           (1 # 2) (0, 0, 0) (Some "bold") O
           (snd (alloc empty_heap (Image_new "RGB" (705, 500) (255, 255, 255))))
           calibri_bold).
  - reflexivity.
  - reflexivity.
  - reflexivity.
  - vm_compute. reflexivity.
  - vm_compute. reflexivity.
  - vm_compute. discriminate.
  - vm_compute. reflexivity.
Defined.

Lemma x_offset_inside_image_witness :
  (0 <= inject_Z 175)%Q /\ (inject_Z 175 + 350 <= inject_Z 700)%Q.
Proof.
  apply (x_offset_inside_image "center" 700 350 (inject_Z 175)).
  - vm_compute. discriminate.
  - vm_compute. discriminate.
  - vm_compute. reflexivity.
Defined.

Lemma x_offset_overflow_witness :
  (exists x, x_offset "center" 100 150 = Done x /\ (x < 0)%Q) /\
  (exists x, x_offset "right" 100 150 = Done x /\ (x < 0)%Q).
Proof.
  apply (x_offset_overflow 100 150). vm_compute. reflexivity.
Defined.

Lemma y_offset_inside_image_witness :
  0 <= y_offset (1 # 2) 500 50 <= 500 - 50.
Proof.
  apply (y_offset_inside_image (1 # 2) 500 50).
  - vm_compute. discriminate.
  - vm_compute. discriminate.
  - lia.
Defined.

Lemma other_images_untouched_witness :
  (forall r', r' <> 1%nat ->
     objects (heap_of
                (add_text_to_image linux_host 0 one_image_heap (Tuple 700 500)
                   "Center Aligned" "center" (1 # 2) "Calibri" 50 0 1
                   (0, 0, 0) (Some "bold"))) r'
     = objects one_image_heap r') /\
  (forall w h, Tuple 700 500 = Tuple w h ->
     1%nat = next_ref one_image_heap /\
     next_ref (heap_of
                 (add_text_to_image linux_host 0 one_image_heap (Tuple 700 500)
                    "Center Aligned" "center" (1 # 2) "Calibri" 50 0 1
                    (0, 0, 0) (Some "bold")))
     = S (next_ref one_image_heap) /\
     forall r', (r' < next_ref one_image_heap)%nat ->
       objects (heap_of
                  (add_text_to_image linux_host 0 one_image_heap (Tuple 700 500)
                     "Center Aligned" "center" (1 # 2) "Calibri" 50 0 1
                     (0, 0, 0) (Some "bold"))) r'
       = objects one_image_heap r') /\
  (forall a, Tuple 700 500 = Ndarray a ->
     1%nat = next_ref one_image_heap /\
     next_ref (heap_of
                 (add_text_to_image linux_host 0 one_image_heap (Tuple 700 500)
                    "Center Aligned" "center" (1 # 2) "Calibri" 50 0 1
                    (0, 0, 0) (Some "bold")))
     = S (next_ref one_image_heap) /\
     forall r', (r' < next_ref one_image_heap)%nat ->
       objects (heap_of
                  (add_text_to_image linux_host 0 one_image_heap (Tuple 700 500)
                     "Center Aligned" "center" (1 # 2) "Calibri" 50 0 1
                     (0, 0, 0) (Some "bold"))) r'
       = objects one_image_heap r').
Proof.
  apply (other_images_untouched linux_host 0 one_image_heap (Tuple 700 500)
           "Center Aligned" "center" (1 # 2) "Calibri" 50 0 1 (0, 0, 0)
           (Some "bold") 1%nat).
  vm_compute. reflexivity.
Defined.

(** * The model with Pillow's refusals: properties *)

(** ** Loading and measuring *)

Lemma checked_measure_Done (p : Pillow) (path text : string) (size : Z)
  (st : fit) :
  Checked.measure p path text size = Done st ->
  0 < size /\ is_font p path = true /\ has_newline text = false /\
  st = measure p path text size.
Proof.
  unfold Checked.measure, Checked.truetype, Checked.textlength.
  destruct (Z.leb_spec size 0) as [Hle|Hlt]; cbn [bind]; [discriminate|].
  destruct (is_font p path); cbn [bind]; [|discriminate].
  destruct (has_newline text); cbn [bind]; [discriminate|].
  intro E. injection E as <-. auto.
Qed.

Lemma checked_measure_ok (p : Pillow) (path text : string) (size : Z) :
  0 < size -> is_font p path = true -> has_newline text = false ->
  Checked.measure p path text size = Done (measure p path text size).
Proof.
  intros Hpos Hfont Hline.
  unfold Checked.measure, Checked.truetype, Checked.textlength.
  apply Z.leb_gt in Hpos. rewrite Hpos, Hfont. cbn [bind].
  now rewrite Hline.
Qed.

Lemma checked_measure_refused (p : Pillow) (path text : string) (size : Z) :
  size <= 0 -> Checked.measure p path text size = Raised (FontSizeError size).
Proof.
  intro Hle. unfold Checked.measure, Checked.truetype.
  apply Z.leb_le in Hle. now rewrite Hle.
Qed.

Lemma checked_measure_raised (p : Pillow) (path text : string) (size : Z)
  (e : error) :
  Checked.measure p path text size = Raised e -> pillow_error e = true.
Proof.
  unfold Checked.measure, Checked.truetype, Checked.textlength.
  destruct (size <=? 0)%Z; cbn [bind].
  { intro E. now injection E as <-. }
  destruct (is_font p path); cbn [bind].
  - destruct (has_newline text); cbn [bind]; [|discriminate].
    intro E. now injection E as <-.
  - intro E. now injection E as <-.
Qed.

(** ** The search *)

Section CheckedSearch.

Variable p : Pillow.
Variables path text : string.
Variables smin smax : Q.
Variable H : Z.

Lemma checked_fit_loop_step (fuel : nat) (s : fit) :
  loop_cond smin smax H s = true ->
  Checked.fit_loop p (S fuel) path text smin smax H s
  = match Checked.measure p path text
            (if Qltb (text_width s) smin
             then font_size s + 1 else font_size s - 1) with
    | Done s' => Checked.fit_loop p fuel path text smin smax H s'
    | Raised e => Raised e
    | OutOfFuel => OutOfFuel
    end.
Proof.
  intro Hc. cbn [Checked.fit_loop]. now rewrite Hc.
Qed.

(** A search that ends under Pillow's refusals ends in the same state in
    the idealised model: what is proved of the states [fit_loop] returns
    holds of the states [Checked.fit_loop] returns. *)
Lemma checked_fit_loop_ideal (fuel : nat) (s st : fit) :
  Checked.fit_loop p fuel path text smin smax H s = Done st ->
  fit_loop p fuel path text smin smax H s = Done st.
Proof.
  revert s. induction fuel as [|n IH]; intros s;
    cbn [Checked.fit_loop fit_loop];
    destruct (loop_cond smin smax H s); try (intro E; exact E).
  destruct (Checked.measure p path text
              (if Qltb (text_width s) smin
               then font_size s + 1 else font_size s - 1))
    as [s1| |] eqn:Hm; try discriminate.
  apply checked_measure_Done in Hm as (_ & _ & _ & ->).
  intro E. apply IH in E. exact E.
Qed.

Lemma checked_fit_loop_positive (fuel : nat) (s st : fit) :
  0 < font_size s ->
  Checked.fit_loop p fuel path text smin smax H s = Done st ->
  0 < font_size st.
Proof.
  revert s. induction fuel as [|n IH]; intros s Hpos;
    cbn [Checked.fit_loop];
    destruct (loop_cond smin smax H s); intro E;
    try discriminate; try (injection E as <-; exact Hpos).
  destruct (Checked.measure p path text
              (if Qltb (text_width s) smin
               then font_size s + 1 else font_size s - 1))
    as [s1| |] eqn:Hm; try discriminate.
  apply checked_measure_Done in Hm as (Hsize & _ & _ & ->).
  apply (IH (measure p path text
               (if Qltb (text_width s) smin
                then font_size s + 1 else font_size s - 1)) Hsize E).
Qed.

Lemma checked_fit_loop_raised (fuel : nat) (s : fit) (e : error) :
  Checked.fit_loop p fuel path text smin smax H s = Raised e ->
  pillow_error e = true.
Proof.
  revert s. induction fuel as [|n IH]; intros s;
    cbn [Checked.fit_loop];
    destruct (loop_cond smin smax H s); try discriminate.
  destruct (Checked.measure p path text
              (if Qltb (text_width s) smin
               then font_size s + 1 else font_size s - 1))
    as [s1|e1|] eqn:Hm; try discriminate.
  - apply IH.
  - intro E. injection E as <-. exact (checked_measure_raised _ _ _ _ _ Hm).
Qed.

(** The cycle of the idealised search is a cycle here too, the two sizes
    being positive. *)
Lemma checked_fit_loop_oscillates (a : Z) (fuel : nat) :
  0 < a -> a + 1 < H ->
  is_font p path = true -> has_newline text = false ->
  (textlength p text (truetype path a) < smin)%Q ->
  (smin <= textlength p text (truetype path (a + 1)))%Q ->
  (smax < textlength p text (truetype path (a + 1)))%Q ->
  Checked.fit_loop p fuel path text smin smax H (measure p path text a)
  = OutOfFuel /\
  Checked.fit_loop p fuel path text smin smax H (measure p path text (a + 1))
  = OutOfFuel.
Proof.
  intros Hpos Hlt Hfont Hline Hnarrow Hmin Hwide.
  apply Qltb_lt in Hnarrow, Hwide. apply Qltb_ge in Hmin.
  assert (Clo : loop_cond smin smax H (measure p path text a) = true).
  { unfold loop_cond. simpl. rewrite Hnarrow. simpl. apply Z.ltb_lt. lia. }
  assert (Chi : loop_cond smin smax H (measure p path text (a + 1)) = true).
  { unfold loop_cond. simpl. rewrite Hwide, orb_true_r. simpl.
    apply Z.ltb_lt. lia. }
  induction fuel as [|n [IHlo IHhi]].
  - split; cbn [Checked.fit_loop]; [now rewrite Clo|now rewrite Chi].
  - split.
    + rewrite (checked_fit_loop_step _ _ Clo). simpl. rewrite Hnarrow.
      rewrite checked_measure_ok by (assumption || lia). exact IHhi.
    + rewrite (checked_fit_loop_step _ _ Chi). simpl. rewrite Hmin.
      replace (a + 1 - 1) with a by lia.
      rewrite checked_measure_ok by (assumption || lia). exact IHlo.
Qed.

End CheckedSearch.

(** ** Anatomy of a call *)

Lemma checked_resolve_image_raised (p : Pillow) (s : heap) (img : img_input)
  (e : error) :
  Checked.resolve_image p s img = Raised e ->
  pillow_error e = true \/ (e = ImgInputError /\ img = Other).
Proof.
  destruct img as [w h|a|r|]; unfold Checked.resolve_image.
  - unfold Checked.Image_new.
    destruct ((fst (w, h) <? 0)%Z || (snd (w, h) <? 0)%Z)%bool; cbn [bind];
      [|discriminate].
    intro E. injection E as <-. now left.
  - unfold Checked.fromarray. destruct (accepts_array p a); cbn [bind];
      [discriminate|].
    intro E. injection E as <-. now left.
  - discriminate.
  - intro E. injection E as <-. now right.
Qed.

Lemma checked_y_offset_raised (y_pos : Checked.float) (H text_height : Z)
  (e : error) :
  Checked.y_offset y_pos H text_height = Raised e ->
  e = OverflowError \/ e = NaNError.
Proof.
  unfold Checked.y_offset, Checked.int_of_float.
  destruct (Checked.float_mul y_pos (Checked.float_of_int (H - text_height)));
    try discriminate; intro E; injection E as <-; auto.
Qed.

(** A call that returns went through every stage. *)
Lemma checked_Done_inv (p : Pillow) (fuel : nat) (s : heap)
  (img : img_input) (text align : string) (y_pos : Checked.float)
  (font_name : string) (font_size0 : Z) (min_width max_width : Q)
  (font_color : RGB) (font_type : option string) (r : ref) (s' : heap) :
  Checked.add_text_to_image p fuel s img text align y_pos font_name font_size0
    min_width max_width font_color font_type = Done (r, s') ->
  exists s1 path st x y,
    Checked.resolve_image p s img = Done (r, s1) /\
    font_path (platform_system p) font_name font_type = Done path /\
    path_exists p path = true /\
    Checked.measure p path text font_size0
    = Done (measure p path text font_size0) /\
    Checked.fit_loop p fuel path text
      (min_width * inject_Z (fst (size (objects s1 r))))
      (max_width * inject_Z (fst (size (objects s1 r))))
      (snd (size (objects s1 r)))
      (measure p path text font_size0) = Done st /\
    x_offset align (fst (size (objects s1 r))) (text_width st) = Done x /\
    Checked.y_offset y_pos (snd (size (objects s1 r))) (font_size st) = Done y /\
    draw_accepts p (objects s1 r) (x, y) text (font st) font_color = true /\
    s' = mutate s1 r
           (fun im => draw_text p im (x, y) text (font st) font_color).
Proof.
  unfold Checked.add_text_to_image.
  destruct (Checked.resolve_image p s img) as [[r1 s1]| |] eqn:Hres;
    cbn [bind]; try discriminate.
  destruct (size (objects s1 r1)) as [width height] eqn:Hsize.
  destruct (font_path (platform_system p) font_name font_type)
    as [path| |] eqn:Hpath; cbn [bind]; try discriminate.
  destruct (path_exists p path) eqn:Hex; cbn [negb]; try discriminate.
  destruct (Checked.measure p path text font_size0) as [s0| |] eqn:Hm;
    cbn [bind]; try discriminate.
  destruct (Checked.fit_loop p fuel path text (min_width * inject_Z width)
              (max_width * inject_Z width) height s0) as [st| |] eqn:Hfit;
    cbn [bind]; try discriminate.
  destruct (x_offset align width (text_width st)) as [x| |] eqn:Hx;
    cbn [bind]; try discriminate.
  destruct (Checked.y_offset y_pos height (font_size st)) as [y| |] eqn:Hy;
    cbn [bind]; try discriminate.
  destruct (draw_accepts p (objects s1 r1) (x, y) text (font st) font_color)
    eqn:Hd; try discriminate.
  intro E. injection E as <- <-.
  pose proof (checked_measure_Done _ _ _ _ _ Hm) as (_ & _ & _ & Hs0).
  subst s0.
  exists s1, path, st, x, y. rewrite Hsize. cbn [fst snd]. auto 12.
Qed.

(** ** Claims *)



(** The product is rounded before [int] is applied: [0.7 * 10] is the
    double 7, where the exact product of the double 0.7 by 10 lies just
    below 7, and [0.29 * 100] is a double just below 29. *)
Lemma y_offset_binary64_samples :
  Checked.y_offset (Checked.decimal 7 10) 60 50 = Done 7 /\
  Checked.y_offset (Checked.decimal 29 100) 150 50 = Done 28 /\
  Checked.y_offset (Checked.decimal 1 2) 500 50 = Done 225 /\
  Checked.y_offset (Checked.decimal (-1) 2) 500 50 = Done (-225).
Proof. repeat split; vm_compute; reflexivity. Qed.

(** C8. The source is resolved by kind.  A [(width, height)] tuple of
    non-negative numbers yields a new object: an RGB image of exactly that
    size, every pixel white, on which the text is then drawn; a call on a
    tuple that returns had such a tuple.  A pixel array that Pillow
    converts yields a new object, the converted image.  An existing image
    is used as it is: nothing is allocated, the call draws on that very
    object, and the returned image is that same object. *)
Theorem source_resolution (p : Pillow) (s : heap) :
  (forall w h,
     0 <= w -> 0 <= h ->
     exists s1,
       Checked.resolve_image p s (Tuple w h) = Done (next_ref s, s1) /\
       mode (objects s1 (next_ref s)) = "RGB" /\
       size (objects s1 (next_ref s)) = (w, h) /\
       (forall i j, getpixel (objects s1 (next_ref s)) i j = (255, 255, 255)) /\
       (forall r', r' <> next_ref s -> objects s1 r' = objects s r')) /\
  (forall a,
     accepts_array p a = true ->
     exists s1,
       Checked.resolve_image p s (Ndarray a) = Done (next_ref s, s1) /\
       objects s1 (next_ref s) = fromarray p a /\
       (forall r', r' <> next_ref s -> objects s1 r' = objects s r')) /\
  (forall r, Checked.resolve_image p s (PILImage r) = Done (r, s)) /\
  (forall fuel w h text align y_pos font_name font_size0 min_width max_width
          font_color font_type r' s',
     Checked.add_text_to_image p fuel s (Tuple w h) text align y_pos font_name
       font_size0 min_width max_width font_color font_type = Done (r', s') ->
     0 <= w /\ 0 <= h /\ r' = next_ref s /\
     exists xy f,
       objects s' r'
       = draw_text p (Image_new "RGB" (w, h) (255, 255, 255)) xy text f
           font_color) /\
  (forall fuel r text align y_pos font_name font_size0 min_width max_width
          font_color font_type r' s',
     Checked.add_text_to_image p fuel s (PILImage r) text align y_pos font_name
       font_size0 min_width max_width font_color font_type = Done (r', s') ->
     r' = r /\
     next_ref s' = next_ref s /\
     (forall r'', r'' <> r -> objects s' r'' = objects s r'') /\
     exists xy f,
       objects s' r = draw_text p (objects s r) xy text f font_color).
Proof.
  split; [|split; [|split; [|split]]].
  - intros w h Hw Hh. unfold Checked.resolve_image, Checked.Image_new.
    cbn [fst snd]. apply Z.ltb_ge in Hw, Hh. rewrite Hw, Hh. cbn [orb bind].
    eexists. split; [reflexivity|]. simpl. unfold upd.
    rewrite Nat.eqb_refl. repeat split.
    intros r' Hr. apply Nat.eqb_neq in Hr. now rewrite Hr.
  - intros a Ha. unfold Checked.resolve_image, Checked.fromarray.
    rewrite Ha. cbn [bind].
    eexists. split; [reflexivity|]. simpl. unfold upd.
    rewrite Nat.eqb_refl. split; [reflexivity|].
    intros r' Hr. apply Nat.eqb_neq in Hr. now rewrite Hr.
  - reflexivity.
  - intros fuel w h text align y_pos font_name font_size0 min_width max_width
      font_color font_type r' s' Hcall.
    apply checked_Done_inv in Hcall
      as (s1 & path & st & x & y & Hres & _ & _ & _ & _ & _ & _ & _ & ->).
    unfold Checked.resolve_image, Checked.Image_new in Hres.
    cbn [fst snd] in Hres.
    destruct (Z.ltb_spec w 0) as [Hw|Hw]; [discriminate|].
    destruct (Z.ltb_spec h 0) as [Hh|Hh]; [discriminate|].
    cbn [orb bind] in Hres. injection Hres as <- <-.
    split; [exact Hw|]. split; [exact Hh|]. split; [reflexivity|].
    eexists _, _. rewrite objects_mutate_same. simpl. unfold upd.
    rewrite Nat.eqb_refl. reflexivity.
  - intros fuel r text align y_pos font_name font_size0 min_width max_width
      font_color font_type r' s' Hcall.
    apply checked_Done_inv in Hcall
      as (s1 & path & st & x & y & Hres & _ & _ & _ & _ & _ & _ & _ & ->).
    simpl in Hres. injection Hres as <- <-.
    split; [reflexivity|]. split; [reflexivity|]. split.
    + intros r'' Hne. now apply objects_mutate_other.
    + eexists _, _. rewrite objects_mutate_same. reflexivity.
Qed.

Lemma source_resolution_witness :
  (exists s1,
     Checked.resolve_image linux_pillow one_image_heap (Tuple 700 500)
     = Done (next_ref one_image_heap, s1) /\
     mode (objects s1 (next_ref one_image_heap)) = "RGB" /\
     size (objects s1 (next_ref one_image_heap)) = (700, 500) /\
     (forall i j,
        getpixel (objects s1 (next_ref one_image_heap)) i j = (255, 255, 255)) /\
     (forall r', r' <> next_ref one_image_heap ->
        objects s1 r' = objects one_image_heap r')) /\
  (O = O /\
   next_ref (heap_of (checked_overlay_call 0)) = next_ref one_image_heap /\
   (forall r'', r'' <> O ->
      objects (heap_of (checked_overlay_call 0)) r'' = objects one_image_heap r'') /\
   exists xy f,
     objects (heap_of (checked_overlay_call 0)) O
     = draw_text linux_pillow (objects one_image_heap O) xy "Center Aligned" f
         (255, 255, 255)).
Proof.
  destruct (source_resolution linux_pillow one_image_heap)
    as (Htuple & _ & _ & _ & Hexisting).
  split.
  - apply (Htuple 700 500); lia.
  - apply (Hexisting O O "Center Aligned" "center" (Checked.decimal 1 2)
             "Calibri" 50 0%Q 1%Q (255, 255, 255) (Some "bold") O
             (heap_of (checked_overlay_call 0))).
    vm_compute. reflexivity.
Defined.

(** Under Pillow a negative size is refused before anything else is
    looked at. *)
Lemma negative_size_refused (p : Pillow) (fuel : nat) (s : heap) (w h : Z)
  (text align : string) (y_pos : Checked.float) (font_name : string)
  (font_size0 : Z) (min_width max_width : Q) (font_color : RGB)
  (font_type : option string) :
  w < 0 \/ h < 0 ->
  Checked.add_text_to_image p fuel s (Tuple w h) text align y_pos font_name
    font_size0 min_width max_width font_color font_type
  = Raised ImageSizeError.
Proof.
  intro Hneg. unfold Checked.add_text_to_image, Checked.resolve_image,
    Checked.Image_new. cbn [fst snd].
  assert (Hb : ((w <? 0)%Z || (h <? 0)%Z)%bool = true).
  { apply orb_true_iff. destruct Hneg as [Hw|Hh]; [left|right];
      now apply Z.ltb_lt. }
  now rewrite Hb.
Qed.

(** ** The search has no floor of its own *)

(** The example of C9 does not load the font at size 0: the call started
    at font size 1 with [max_width = 0.005] on a 100 pixel wide image
    steps to size 0, where [ImageFont.truetype] refuses the size and the
    call fails. *)
Lemma font_not_loaded_at_size_zero :
  Checked.add_text_to_image linux_pillow 1 empty_heap (Tuple 100 50) "Hi"
    "left" (Checked.decimal 1 2) "Arial" 1 0 (1 # 200) (0, 0, 0) None
  = Raised (FontSizeError 0) /\
  Checked.measure linux_pillow arial "Hi" 0 = Raised (FontSizeError 0).
Proof. split; vm_compute; reflexivity. Qed.

(** C9, amended.  The function puts no lower bound on the font size and
    never rejects or clamps a size itself: while the text is too wide it
    asks for the font one size smaller.  A size that is not positive is
    never loaded or measured, because [ImageFont.truetype] refuses it: a
    search that finds the text too wide at every size from the initial one
    down to 1 fails at size 0 with that error, after as many iterations as
    the initial size; and a call that returns has drawn with a font of
    positive size. *)
Theorem font_size_not_bounded_below :
  (forall (p : Pillow) (path text : string) (size : Z),
     size <= 0 ->
     Checked.measure p path text size = Raised (FontSizeError size)) /\
  (forall (p : Pillow) (path text : string) (smin smax : Q) (H font_size0 : Z)
          (extra : nat),
     0 < font_size0 < H ->
     is_font p path = true -> has_newline text = false ->
     (forall z, 0 < z <= font_size0 ->
                (smin <= textlength p text (truetype path z))%Q /\
                (smax < textlength p text (truetype path z))%Q) ->
     Checked.fit_loop p (Z.to_nat font_size0 + extra) path text smin smax H
       (measure p path text font_size0) = Raised (FontSizeError 0)) /\
  (forall (p : Pillow) (fuel : nat) (s : heap) (img : img_input)
          (text align : string) (y_pos : Checked.float) (font_name : string)
          (font_size0 : Z) (min_width max_width : Q) (font_color : RGB)
          (font_type : option string) (r : ref) (s' : heap),
     Checked.add_text_to_image p fuel s img text align y_pos font_name
       font_size0 min_width max_width font_color font_type = Done (r, s') ->
     exists s1 path xy size,
       0 < size /\
       objects s' r
       = draw_text p (objects s1 r) xy text (truetype path size) font_color).
Proof.
  split; [|split].
  - intros p path text size. apply checked_measure_refused.
  - intros p path text smin smax H font_size0 extra Hrange Hfont Hline.
    remember (Z.to_nat font_size0) as n eqn:Hn.
    revert font_size0 Hn Hrange.
    induction n as [|n IH]; intros font_size0 Hn Hrange Hwide; [lia|].
    destruct (Hwide font_size0 ltac:(lia)) as [Hmin Hmax].
    apply Qltb_ge in Hmin. apply Qltb_lt in Hmax.
    assert (Hc : loop_cond smin smax H (measure p path text font_size0) = true).
    { unfold loop_cond. simpl. rewrite Hmax, orb_true_r. simpl.
      apply Z.ltb_lt. lia. }
    change (S n + extra)%nat with (S (n + extra)).
    rewrite (checked_fit_loop_step _ _ _ _ _ _ _ _ Hc). simpl. rewrite Hmin.
    destruct (Z.eq_dec font_size0 1) as [->|Hne].
    + now rewrite checked_measure_refused by lia.
    + rewrite checked_measure_ok by (assumption || lia).
      apply IH; [lia|lia|]. intros z Hz. apply Hwide. lia.
  - intros p fuel s img text align y_pos font_name font_size0 min_width
      max_width font_color font_type r s' Hcall.
    apply checked_Done_inv in Hcall
      as (s1 & path & st & x & y & _ & _ & _ & Hm & Hfit & _ & _ & _ & ->).
    apply checked_measure_Done in Hm as (Hpos & _).
    pose proof (checked_fit_loop_positive p path text _ _ _ fuel
                  (measure p path text font_size0) st Hpos Hfit) as Hst.
    apply checked_fit_loop_ideal in Hfit.
    pose proof (fit_loop_Done_measured _ _ _ _ _ _ _ _ _ (eq_refl _) Hfit)
      as Hmeasured.
    exists s1, path, (x, y), (font_size st). split; [exact Hst|].
    rewrite objects_mutate_same. rewrite Hmeasured at 1. reflexivity.
Qed.

Lemma font_size_not_bounded_below_witness :
  Checked.fit_loop linux_pillow (Z.to_nat 3 + 2) arial "Hi" 0 (1 # 2) 50
    (measure linux_pillow arial "Hi" 3) = Raised (FontSizeError 0).
Proof.
  apply (proj1 (proj2 font_size_not_bounded_below) linux_pillow arial "Hi"
           0%Q (1 # 2) 50 3 2%nat).
  - lia.
  - reflexivity.
  - reflexivity.
  - intros z Hz.
    assert (Hc : z = 1 \/ z = 2 \/ z = 3) by lia.
    destruct Hc as [-> | [-> | ->]]; split; vm_compute;
      reflexivity || discriminate.
Defined.

(** ** The vertical position is taken as given *)

(** An error on account of [y_pos]: with [y_pos = 1e308] the product of
    line 103 is infinite and [int] refuses it, where the same call with
    [y_pos = 0.5] returns. *)
Lemma y_pos_overflow_raises :
  checked_sample_call 0 500 (Checked.float_of_int (10 ^ 308))
  = Raised OverflowError /\
  raised (checked_sample_call 0 500 (Checked.decimal 1 2)) = None.
Proof. split; vm_compute; reflexivity. Qed.

(** C10, amended.  [y_pos] is never validated: the function makes no
    range check, and a call that returns has drawn the text at
    [y = int(y_pos * (height - font_size))] for the [y_pos] it was given,
    inside the image or not ([y_pos = 2] draws at [y = 900] and
    [y_pos = -1] at [y = -450] on a 500 pixel high image).  The errors
    that depend on [y_pos] are those of [int] on an infinite or NaN
    product and of [draw.text] refusing the coordinates; every other error
    of a call is raised for every [y_pos] alike. *)
Theorem y_pos_not_validated (p : Pillow) (fuel : nat) (s : heap)
  (img : img_input) (text align font_name : string) (font_size0 : Z)
  (min_width max_width : Q) (font_color : RGB) (font_type : option string) :
  (forall (y1 : Checked.float) (e : error),
     Checked.add_text_to_image p fuel s img text align y1 font_name font_size0
       min_width max_width font_color font_type = Raised e ->
     e = OverflowError \/ e = NaNError \/ e = DrawError \/
     forall y2 : Checked.float,
       Checked.add_text_to_image p fuel s img text align y2 font_name
         font_size0 min_width max_width font_color font_type = Raised e) /\
  (forall (y_pos : Checked.float) r s',
     Checked.add_text_to_image p fuel s img text align y_pos font_name
       font_size0 min_width max_width font_color font_type = Done (r, s') ->
     exists s1 path st x y,
       Checked.resolve_image p s img = Done (r, s1) /\
       Checked.fit_loop p fuel path text
         (min_width * inject_Z (fst (size (objects s1 r))))
         (max_width * inject_Z (fst (size (objects s1 r))))
         (snd (size (objects s1 r)))
         (measure p path text font_size0) = Done st /\
       Checked.y_offset y_pos (snd (size (objects s1 r))) (font_size st)
       = Done y /\
       objects s' r
       = draw_text p (objects s1 r) (x, y) text (font st) font_color) /\
  (exists s',
     checked_sample_call 0 500 (Checked.float_of_int 2) = Done (O, s') /\
     objects s' O
     = draw_text linux_pillow (Image_new "RGB" (700, 500) (255, 255, 255))
         (175%Q, 900) "Center Aligned" (truetype calibri_bold 50) (0, 0, 0) /\
     snd (size (objects s' O)) <= 900) /\
  (exists s',
     checked_sample_call 0 500 (Checked.float_of_int (-1)) = Done (O, s') /\
     objects s' O
     = draw_text linux_pillow (Image_new "RGB" (700, 500) (255, 255, 255))
         (175%Q, -450) "Center Aligned" (truetype calibri_bold 50) (0, 0, 0)).
Proof.
  split; [|split; [|split]].
  - intros y1 e. unfold Checked.add_text_to_image.
    destruct (Checked.resolve_image p s img) as [[r s1]|e1|]; cbn [bind];
      try discriminate.
    2: { intro E. right; right; right. intro y2. exact E. }
    destruct (size (objects s1 r)) as [width height].
    destruct (font_path (platform_system p) font_name font_type)
      as [path|e2|]; cbn [bind]; try discriminate.
    2: { intro E. right; right; right. intro y2. exact E. }
    destruct (path_exists p path); cbn [negb].
    2: { intro E. right; right; right. intro y2. exact E. }
    destruct (Checked.measure p path text font_size0) as [s0|e3|];
      cbn [bind]; try discriminate.
    2: { intro E. right; right; right. intro y2. exact E. }
    destruct (Checked.fit_loop p fuel path text (min_width * inject_Z width)
                (max_width * inject_Z width) height s0) as [st|e4|];
      cbn [bind]; try discriminate.
    2: { intro E. right; right; right. intro y2. exact E. }
    destruct (x_offset align width (text_width st)) as [x|e5|];
      cbn [bind]; try discriminate.
    2: { intro E. right; right; right. intro y2. exact E. }
    destruct (Checked.y_offset y1 height (font_size st)) as [y|e6|] eqn:Hy;
      cbn [bind]; try discriminate.
    + destruct (draw_accepts p (objects s1 r) (x, y) text (font st)
                  font_color); [discriminate|].
      intro E. injection E as <-. auto.
    + intro E. injection E as <-.
      destruct (checked_y_offset_raised _ _ _ _ Hy) as [->| ->]; auto.
  - intros y_pos r s' Hcall.
    apply checked_Done_inv in Hcall
      as (s1 & path & st & x & y & Hres & _ & _ & _ & Hfit & _ & Hy & _ & ->).
    exists s1, path, st, x, y.
    split; [exact Hres|]. split; [exact Hfit|]. split; [exact Hy|].
    apply objects_mutate_same.
  - eexists. split; [vm_compute; reflexivity|].
    split; [vm_compute; reflexivity|]. vm_compute. discriminate.
  - eexists. split; vm_compute; reflexivity.
Qed.

Lemma y_pos_not_validated_witness :
  exists s1 path st x y,
    Checked.resolve_image linux_pillow empty_heap (Tuple 700 500)
    = Done (O, s1) /\
    Checked.fit_loop linux_pillow 0 path "Center Aligned"
      (0 * inject_Z (fst (size (objects s1 O))))
      (1 * inject_Z (fst (size (objects s1 O))))
      (snd (size (objects s1 O)))
      (measure linux_pillow path "Center Aligned" 50) = Done st /\
    Checked.y_offset (Checked.float_of_int 2) (snd (size (objects s1 O)))
      (font_size st) = Done y /\
    objects (heap_of (checked_sample_call 0 500 (Checked.float_of_int 2))) O
    = draw_text linux_pillow (objects s1 O) (x, y) "Center Aligned" (font st)
        (0, 0, 0).
Proof.
  destruct (y_pos_not_validated linux_pillow 0 empty_heap (Tuple 700 500)
              "Center Aligned" "center" "Calibri" 50 0 1 (0, 0, 0)
              (Some "bold")) as (_ & Hdone & _).
  apply (Hdone (Checked.float_of_int 2) O
           (heap_of (checked_sample_call 0 500 (Checked.float_of_int 2)))).
  vm_compute. reflexivity.
Defined.

(** ** Errors *)

(** Every error a call raises comes out of one of the calls it makes
    (Pillow's or [int]'s), or is one of the four the function raises
    itself, and then its cause is present. *)
Theorem raised_only_in_four_cases (p : Pillow) (fuel : nat) (s : heap)
  (img : img_input) (text align : string) (y_pos : Checked.float)
  (font_name : string) (font_size0 : Z) (min_width max_width : Q)
  (font_color : RGB) (font_type : option string) (e : error) :
  Checked.add_text_to_image p fuel s img text align y_pos font_name font_size0
    min_width max_width font_color font_type = Raised e ->
  pillow_error e = true
  \/ (e = ImgInputError /\ img = Other)
  \/ (e = UnsupportedOS /\ platform_system p <> "Darwin"
      /\ platform_system p <> "Linux" /\ platform_system p <> "Windows")
  \/ (exists path,
        e = FontMissing path
        /\ font_path (platform_system p) font_name font_type = Done path
        /\ path_exists p path = false)
  \/ (e = AlignError /\ align <> "left" /\ align <> "center"
      /\ align <> "right").
Proof.
  unfold Checked.add_text_to_image.
  destruct (Checked.resolve_image p s img) as [[r s1]|e1|] eqn:Hres;
    cbn [bind]; try discriminate.
  2: { intro E. injection E as <-.
       destruct (checked_resolve_image_raised _ _ _ _ Hres) as [Hp|Ho]; auto. }
  destruct (size (objects s1 r)) as [width height].
  destruct (font_path (platform_system p) font_name font_type)
    as [path|e2|] eqn:Hpath; cbn [bind]; try discriminate.
  2: { intro E. injection E as <-. right; right; left.
       now apply font_path_raised in Hpath. }
  destruct (path_exists p path) eqn:Hex; cbn [negb].
  2: { intro E. injection E as <-. right; right; right; left.
       exists path. auto. }
  destruct (Checked.measure p path text font_size0) as [s0|e3|] eqn:Hm;
    cbn [bind]; try discriminate.
  2: { intro E. injection E as <-. left.
       exact (checked_measure_raised _ _ _ _ _ Hm). }
  destruct (Checked.fit_loop p fuel path text (min_width * inject_Z width)
              (max_width * inject_Z width) height s0) as [st|e4|] eqn:Hfit;
    cbn [bind]; try discriminate.
  2: { intro E. injection E as <-. left.
       exact (checked_fit_loop_raised _ _ _ _ _ _ _ _ _ Hfit). }
  destruct (x_offset align width (text_width st)) as [x|e5|] eqn:Hx;
    cbn [bind]; try discriminate.
  2: { intro E. injection E as <-. right; right; right; right.
       now apply x_offset_raised in Hx. }
  destruct (Checked.y_offset y_pos height (font_size st)) as [y|e6|] eqn:Hy;
    cbn [bind]; try discriminate.
  - destruct (draw_accepts p (objects s1 r) (x, y) text (font st) font_color);
      [discriminate|].
    intro E. injection E as <-. now left.
  - intro E. injection E as <-. left.
    destruct (checked_y_offset_raised _ _ _ _ Hy) as [->| ->]; reflexivity.
Qed.

Lemma raised_only_in_four_cases_witness :
  pillow_error (FontMissing arial) = true
  \/ (FontMissing arial = ImgInputError /\ Tuple 700 500 = Other)
  \/ (FontMissing arial = UnsupportedOS
      /\ platform_system fontless_pillow <> "Darwin"
      /\ platform_system fontless_pillow <> "Linux"
      /\ platform_system fontless_pillow <> "Windows")
  \/ (exists path,
        FontMissing arial = FontMissing path
        /\ font_path (platform_system fontless_pillow) "Arial" None = Done path
        /\ path_exists fontless_pillow path = false)
  \/ (FontMissing arial = AlignError /\ "center" <> "left"
      /\ "center" <> "center" /\ "center" <> "right").
Proof.
  apply (raised_only_in_four_cases fontless_pillow 0 empty_heap (Tuple 700 500)
           "Hi" "center" (Checked.decimal 1 2) "Arial" 20 0 1 (0, 0, 0) None
           (FontMissing arial)).
  vm_compute. reflexivity.
Defined.

(** The checks made before the font is loaded raise whatever the remaining
    arguments are, an invalid [align] or a search that would never end
    included, and in this order: an unsupported [img_input] or a source
    Pillow refuses raises first; once the image is resolved an unsupported
    OS raises; once the path is resolved a missing font file raises. *)
Theorem raised_before_search (p : Pillow) (fuel : nat) (s : heap)
  (img : img_input) (text align : string) (y_pos : Checked.float)
  (font_name : string) (font_size0 : Z) (min_width max_width : Q)
  (font_color : RGB) (font_type : option string) :
  let call :=
    Checked.add_text_to_image p fuel s img text align y_pos font_name
      font_size0 min_width max_width font_color font_type in
  (img = Other -> call = Raised ImgInputError) /\
  (forall e, Checked.resolve_image p s img = Raised e -> call = Raised e) /\
  (forall r s1,
     Checked.resolve_image p s img = Done (r, s1) ->
     font_path (platform_system p) font_name font_type = Raised UnsupportedOS ->
     call = Raised UnsupportedOS) /\
  (forall r s1 path,
     Checked.resolve_image p s img = Done (r, s1) ->
     font_path (platform_system p) font_name font_type = Done path ->
     path_exists p path = false ->
     call = Raised (FontMissing path)).
Proof.
  unfold Checked.add_text_to_image. cbv zeta.
  split; [|split; [|split]].
  - now intros ->.
  - intros e Hres. now rewrite Hres.
  - intros r s1 Hres Hpath. rewrite Hres. cbn [bind].
    destruct (size (objects s1 r)) as [width height]. now rewrite Hpath.
  - intros r s1 path Hres Hpath Hex. rewrite Hres. cbn [bind].
    destruct (size (objects s1 r)) as [width height]. rewrite Hpath.
    cbn [bind]. now rewrite Hex.
Qed.

Lemma raised_before_search_witness :
  Checked.add_text_to_image linux_pillow 0 empty_heap Other "Hi" "middle"
    (Checked.decimal 1 2) "Arial" 20 (1 # 2) (1 # 2) (0, 0, 0) None
  = Raised ImgInputError /\
  Checked.add_text_to_image linux_pillow 0 empty_heap (Tuple (-1) 5) "Hi"
    "middle" (Checked.decimal 1 2) "Arial" 20 (1 # 2) (1 # 2) (0, 0, 0) None
  = Raised ImageSizeError /\
  Checked.add_text_to_image freebsd_pillow 0 empty_heap (Tuple 700 500) "Hi"
    "middle" (Checked.decimal 1 2) "Arial" 20 (1 # 2) (1 # 2) (0, 0, 0) None
  = Raised UnsupportedOS /\
  Checked.add_text_to_image fontless_pillow 0 empty_heap (Tuple 700 500) "Hi"
    "middle" (Checked.decimal 1 2) "Arial" 20 (1 # 2) (1 # 2) (0, 0, 0) None
  = Raised (FontMissing arial).
Proof.
  split; [|split; [|split]].
  - apply (proj1 (raised_before_search linux_pillow 0 empty_heap Other "Hi"
                    "middle" (Checked.decimal 1 2) "Arial" 20 (1 # 2) (1 # 2)
                    (0, 0, 0) None)).
    reflexivity.
  - apply (proj1 (proj2 (raised_before_search linux_pillow 0 empty_heap
                           (Tuple (-1) 5) "Hi" "middle" (Checked.decimal 1 2)
                           "Arial" 20 (1 # 2) (1 # 2) (0, 0, 0) None))).
    reflexivity.
  - apply (proj1 (proj2 (proj2 (raised_before_search freebsd_pillow 0
                                  empty_heap (Tuple 700 500) "Hi" "middle"
                                  (Checked.decimal 1 2) "Arial" 20 (1 # 2)
                                  (1 # 2) (0, 0, 0) None)))
             O (snd (alloc empty_heap
                       (Image_new "RGB" (700, 500) (255, 255, 255))))).
    + reflexivity.
    + reflexivity.
  - apply (proj2 (proj2 (proj2 (raised_before_search fontless_pillow 0
                                  empty_heap (Tuple 700 500) "Hi" "middle"
                                  (Checked.decimal 1 2) "Arial" 20 (1 # 2)
                                  (1 # 2) (0, 0, 0) None)))
             O (snd (alloc empty_heap
                       (Image_new "RGB" (700, 500) (255, 255, 255)))) arial).
    + reflexivity.
    + reflexivity.
    + reflexivity.
Defined.
